(** * govfx: computed-style maps and hexadecimal colour conversion

    A shallow embedding of the style utilities of the govfx animation
    library: the later revision of the file (package [govfx], with
    vendor-name clean-up, multi-value properties, [ToRGB] and [Unit]) and
    the [RGBA] function of the earlier revision [css.go] (package [vfx]).

    Go strings are byte sequences: they are modelled by [string], whose
    characters are the 256 byte values.  A Go call that can fail at run time
    with an index or slice fault is modelled in the [exec] monad. *)

From Stdlib Require Import ZArith Ascii String List Lia DecimalString.
From stdpp Require Import gmap strings.

Local Open Scope string_scope.

(** ** Run-time faults *)

Inductive fault : Set :=
| IndexOutOfRange
| SliceOutOfRange
| NilDereference.

Inductive exec (A : Type) : Type :=
| Ret (a : A)
| Fault (f : fault).

Arguments Ret {A} a.
Arguments Fault {A} f.

Definition bind {A B : Type} (m : exec A) (k : A -> exec B) : exec B :=
  match m with
  | Ret a => k a
  | Fault f => Fault f
  end.

Notation "'let*' x := m 'in' k" := (bind m (fun x => k))
  (at level 10, x name, m at level 100, k at level 200).

Definition returns {A : Type} (m : exec A) : Prop := exists a, m = Ret a.
Definition faults {A : Type} (m : exec A) : Prop := exists f, m = Fault f.

(** ** The parts of Go's standard library the code calls *)

Module Go.

(** [len(s)]: the number of bytes. *)
Definition len (s : string) : nat := String.length s.

(** [strings.HasPrefix(s, prefix)]. *)
Definition HasPrefix (s pre : string) : bool := String.prefix pre s.

(** [s[n:]] for [n <= len(s)]. *)
Fixpoint drop (n : nat) (s : string) : string :=
  match n, s with
  | O, _ => s
  | S n', String _ s' => drop n' s'
  | S _, EmptyString => EmptyString
  end.

(** [strings.TrimPrefix(s, prefix)]: [s] without the leading [prefix],
    and [s] itself when it does not start with [prefix]. *)
Definition TrimPrefix (s pre : string) : string :=
  if HasPrefix s pre then drop (len pre) s else s.

(** [s[i:j]] with its bounds check. *)
Definition slice (s : string) (i j : nat) : exec string :=
  if (i <=? j)%nat && (j <=? len s)%nat
  then Ret (String.substring i (j - i) s)
  else Fault SliceOutOfRange.

(** [a[i]] on a slice value with its bounds check. *)
Definition index {A : Type} (a : list A) (i : nat) : exec A :=
  match nth_error a i with
  | Some x => Ret x
  | None => Fault IndexOutOfRange
  end.

(** *** UTF-8 sequences

    [strings.Split(s, "")] explodes [s] into its UTF-8 sequences, one
    element per sequence and one element per byte that starts no valid
    sequence.  [decodeSize] is the width [utf8.DecodeRuneInString]
    reports for the front of a non-empty string. *)

Definition byte (c : ascii) : nat := nat_of_ascii c.

Definition between (lo hi : nat) (c : ascii) : bool :=
  (lo <=? byte c)%nat && (byte c <=? hi)%nat.

(** The continuation bytes wanted after lead byte [c]: the width of the
    sequence and the accepted range of the second byte; [None] for an
    ASCII byte or a byte that cannot lead. *)
Definition lead (c : ascii) : option (nat * (nat * nat)) :=
  let b := byte c in
  if (b <? 194)%nat then None                      (* 00..7F, 80..C1 *)
  else if (b <? 224)%nat then Some (2, (128, 191)) (* C2..DF *)
  else if (b =? 224)%nat then Some (3, (160, 191)) (* E0 *)
  else if (b =? 237)%nat then Some (3, (128, 159)) (* ED *)
  else if (b <? 240)%nat then Some (3, (128, 191)) (* E1..EC, EE, EF *)
  else if (b =? 240)%nat then Some (4, (144, 191)) (* F0 *)
  else if (b <? 244)%nat then Some (4, (128, 191)) (* F1..F3 *)
  else if (b =? 244)%nat then Some (4, (128, 143)) (* F4 *)
  else None.                                       (* F5..FF *)

Definition decodeSize (s : string) : nat :=
  match s with
  | EmptyString => 0
  | String c0 rest =>
      match lead c0 with
      | None => 1
      | Some (sz, (lo, hi)) =>
          if (len s <? sz)%nat then 1 else
          match rest with
          | String c1 rest1 =>
              if negb (between lo hi c1) then 1
              else if (sz <=? 2)%nat then 2
              else match rest1 with
                   | String c2 rest2 =>
                       if negb (between 128 191 c2) then 1
                       else if (sz <=? 3)%nat then 3
                       else match rest2 with
                            | String c3 _ =>
                                if negb (between 128 191 c3) then 1 else 4
                            | EmptyString => 1
                            end
                   | EmptyString => 1
                   end
          | EmptyString => 1
          end
      end
  end.

(** The loop of [explode]: cut one sequence off the front until the
    string is used up.  [fuel] bounds the number of cuts; [len s] cuts
    always suffice, as each cut removes at least one byte.  A byte that
    starts no valid sequence makes a part of its own (Go releases of the
    time of the code put the replacement character in its place; the
    number of parts is the same, and for ASCII input so are the parts). *)
Fixpoint explodeLoop (fuel : nat) (s : string) : list string :=
  match fuel with
  | O => []
  | S fuel' =>
      match s with
      | EmptyString => []
      | _ =>
          let size := decodeSize s in
          String.substring 0 size s :: explodeLoop fuel' (drop size s)
      end
  end.

Definition explode (s : string) : list string := explodeLoop (len s) s.

(** [utf8.RuneCountInString(s)]. *)
Definition RuneCountInString (s : string) : nat := List.length (explode s).

(** [strings.Split(s, "")]. *)
Definition SplitChars (s : string) : list string := explode s.

(** *** Formatting *)

(** The verb [%d] on an [int]: decimal digits, with a leading minus sign
    for a negative number. *)
Definition fmtInt (n : Z) : string := NilEmpty.string_of_int (Z.to_int n).

Definition digit (n : Z) : string := fmtInt (n mod 10).

(** The verb [%.2f] on [float64(alpha)/100].  The quotient is the double
    nearest to the rational alpha/100, and [%.2f] prints the two-decimal
    number nearest to that double.  For an [alpha] of GopherJS's 32-bit
    [int] the double is within 3e-9 of alpha/100, which has two decimals
    itself, so the digits printed are exactly those of alpha/100: the
    integer part of |alpha|/100, a point, and the two digits of
    |alpha| mod 100, after a minus sign when [alpha] is negative. *)
Definition fmtHundredths (alpha : Z) : string :=
  let a := Z.abs alpha in
  (if (alpha <? 0)%Z then "-" else "")
    +:+ fmtInt (a / 100) +:+ "." +:+ digit (a mod 100 / 10) +:+ digit (a mod 100).

(** *** The regular expression [propName]

    [regexp.MustCompile("([\\w\\-0-9]+)\\(?\\)?")]: one or more characters of
    the class (ASCII letters, digits, underscore, hyphen), then an optional
    opening and an optional closing parenthesis.  The leftmost match
    starts at the first character of the class and, the repetition being
    greedy and the rest optional, its group 1 is the whole run of class
    characters from there. *)

Definition isNameChar (c : ascii) : bool :=
  between 48 57 c || between 65 90 c || between 97 122 c
  || (byte c =? 95)%nat || (byte c =? 45)%nat.

Fixpoint nameRun (s : string) : string * string :=
  match s with
  | EmptyString => (EmptyString, EmptyString)
  | String c s' =>
      if isNameChar c
      then let (run, rest) := nameRun s' in (String c run, rest)
      else (EmptyString, s)
  end.

Definition optionalChar (c : ascii) (s : string) : string * string :=
  match s with
  | String d s' => if Ascii.eqb c d then (String c EmptyString, s') else (EmptyString, s)
  | EmptyString => (EmptyString, s)
  end.

(** [propName.FindStringSubmatch(s)]: the match and its group 1, or the
    nil slice when nothing matches. *)
Fixpoint FindStringSubmatch (s : string) : list string :=
  match s with
  | EmptyString => []
  | String c s' =>
      if isNameChar c then
        let (run, rest) := nameRun s in
        let (lp, rest1) := optionalChar "("%char rest in
        let (rp, _) := optionalChar ")"%char rest1 in
        [run +:+ lp +:+ rp; run]
      else FindStringSubmatch s'
  end.

End Go.

(** ** The earlier revision, [css.go] (package [vfx]) *)

Module Vfx.
Import Go.

Section Hex.
(** The helper [parseIntBase16] is declared in a file of the package
    that is not among the sources; it is taken as a parameter, an
    [int]-valued function of a string. *)
Variable parseIntBase16 : string -> Z.

(** [doubleString]: [fmt.Sprintf("%s%s", c, c)]. *)
Definition doubleString (c : string) : string := c +:+ c.

Definition RGBA (hex : string) (alpha : Z) : exec string :=
  let rgba r g b af :=
    "rgba(" +:+ fmtInt r +:+ "," +:+ fmtInt g +:+ "," +:+ fmtInt b
            +:+ "," +:+ af +:+ ")" in
  let hex := if HasPrefix hex "#" then TrimPrefix hex "#" else hex in
  let af := fmtHundredths alpha in
  if (len hex <? 6)%nat then
    let parts := SplitChars hex in
    let* p0 := index parts 0 in
    let r := parseIntBase16 (doubleString p0) in
    let* p1 := index parts 1 in
    let g := parseIntBase16 (doubleString p1) in
    let* p2 := index parts 2 in
    let b := parseIntBase16 (doubleString p2) in
    Ret (rgba r g b af)
  else
    let* h0 := slice hex 0 2 in
    let r := parseIntBase16 h0 in
    let* h1 := slice hex 2 4 in
    let g := parseIntBase16 h1 in
    let* h2 := slice hex 4 6 in
    let b := parseIntBase16 h2 in
    Ret (rgba r g b af).
End Hex.
End Vfx.

(** ** The later revision (package [govfx]) *)

Module Govfx.
Import Go.

(** The sentinel error value [ErrNotFound], declared in a file of the
    package that is not among the sources.  An [error] result is
    [Some ErrNotFound], or [None] for Go's [nil]. *)
Inductive error : Set := ErrNotFound.

(** [ComputedStyle] defines a style property item. *)
Record ComputedStyle : Type := {
  Name : string;
  VendorName : string;
  Value : string;
  Values : list string;
  Priority : bool
}.

(** [ComputedStyleMap]: a Go map from property name to a pointer to its
    record.  Every pointer stored is to a record allocated for that key
    alone, so an update through the pointer is an update of the entry. *)
Abbreviation ComputedStyleMap := (gmap string ComputedStyle).

(** *** Queries against the browser *)

Section Dom.
(** A JavaScript value behind a [*js.Object], with its [String()]
    method; [strings.TrimSpace] of Go's library, whose set of white
    space characters no property below depends on. *)
Variable JsObject : Type.
Variable JsString : JsObject -> string.
Variable TrimSpace : string -> string.

(** A [*dom.CSSStyleDeclaration] that is not nil: what its methods
    [getPropertyValue] and [getPropertyPriority] answer ([None] for a
    nil object), and the entries of the map [ToMap()] builds, in the
    order in which the [range] loop happens to visit them. *)
Record CSSStyleDeclaration : Type := {
  getPropertyValue : string -> option JsObject;
  getPropertyPriority : string -> option JsObject;
  ToMap : list (string * string)
}.

(** [Window().GetComputedStyle(elem, ps)] of the host page. *)
Variable Element : Type.
Variable WindowGetComputedStyle :
  Element -> string -> option CSSStyleDeclaration.

Definition GetComputedStyle (elem : Element) (ps : string)
  : option CSSStyleDeclaration * option error :=
  let css := WindowGetComputedStyle elem ps in
  match css with
  | None => (None, Some ErrNotFound)
  | Some _ => (css, None)
  end.

Definition GetComputedStyleValueWith (css : CSSStyleDeclaration) (prop : string)
  : option JsObject * option error :=
  let vs := getPropertyValue css prop in
  match vs with
  | None => (None, Some ErrNotFound)
  | Some _ => (vs, None)
  end.

(** A method call through a pointer that may be nil. *)
Definition deref {A : Type} (p : option A) : exec A :=
  match p with
  | Some a => Ret a
  | None => Fault NilDereference
  end.

Definition GetComputedStyleValue (elem : Element) (psudo prop : string)
  : exec (option JsObject * option error) :=
  let (vs, err) := GetComputedStyle elem psudo in
  match err with
  | Some e => Ret (None, Some e)
  | None =>
      let* css := deref vs in
      let (vcs, err) := GetComputedStyleValueWith css prop in
      match err with
      | Some e => Ret (None, Some e)
      | None => Ret (vcs, None)
      end
  end.

Definition GetComputedStylePriority (css : CSSStyleDeclaration) (prop : string)
  : Z * option error :=
  match getPropertyPriority css prop with
  | None => (0%Z, Some ErrNotFound)
  | Some vs =>
      if String.eqb (TrimSpace (JsString vs)) "" then (0%Z, None)
      else (1%Z, None)
  end.

(** [vendorTags] provides a list of browser specific vendor names. *)
Definition vendorTags : list string := ["moz"; "webki"; "O"; "ms"].

(** The clean-up loop of [GetComputedStyleMap] over [vendorTags]:
    [fmt.Sprintf("%s", vo)] is [vo], [fmt.Sprintf("-%s-", vo)] is [vo]
    between two hyphens. *)
Definition unvendoredName (key : string) : string :=
  fold_left
    (fun name vo => TrimPrefix (TrimPrefix name vo) ("-" +:+ vo +:+ "-"))
    vendorTags key.

(** One turn of the [range] loop of [GetComputedStyleMap]. *)
Definition rangeStep (css : CSSStyleDeclaration)
    (styleMap : ComputedStyleMap) (entry : string * string) : ComputedStyleMap :=
  let (key, val) := entry in
  let (priority, _) := GetComputedStylePriority css key in
  let name := unvendoredName key in
  let vals := if negb (String.eqb (TrimSpace val) "none") then [val] else [] in
  <[ name := {| Name := name;
                VendorName := key;
                Value := val;
                Values := vals;
                Priority := (0 <? priority)%Z |} ]> styleMap.

Definition GetComputedStyleMap (elem : Element) (ps : string)
  : exec (option ComputedStyleMap * option error) :=
  let (css, err) := GetComputedStyle elem ps in
  match err with
  | Some e => Ret (None, Some e)
  | None =>
      let* css := deref css in
      let styleMap := fold_left (rangeStep css) (ToMap css) ∅ in
      Ret (Some styleMap, None)
  end.
End Dom.

(** *** The style map *)

(** [Has] returns true/false if the property exists. *)
Definition Has (c : ComputedStyleMap) (name : string) : bool :=
  match c !! name with
  | Some _ => true
  | None => false
  end.

(** [Get] retrieves the specific property if it exists. *)
Definition Get (c : ComputedStyleMap) (name : string)
  : option ComputedStyle * option error :=
  match c !! name with
  | None => (None, Some ErrNotFound)
  | Some cs => (Some cs, None)
  end.

(** [Add] adjusts the stylemap with a new property.  After [Has] has
    answered true the lookup [c[name]] finds the record, so the last
    branch is never taken. *)
Definition Add (c : ComputedStyleMap) (name value : string) (priority : bool)
  : ComputedStyleMap :=
  if negb (Has c name) then
    <[ name := {| Name := name; VendorName := name; Value := value;
                  Values := [value]; Priority := priority |} ]> c
  else
    match c !! name with
    | Some m =>
        <[ name := {| Name := Name m; VendorName := VendorName m; Value := value;
                      Values := [value]; Priority := priority |} ]> c
    | None => c
    end.

(** The [range] loop of [AddMore] over [m.Values]: every element whose
    property name is [prop] is overwritten by [value]; the result is the
    list after the loop and the flag [found]. *)
Fixpoint replaceNamed (prop value : string) (vals : list string)
  : exec (list string * bool) :=
  match vals with
  | [] => Ret ([], false)
  | val :: rest =>
      let* valName := index (FindStringSubmatch val) 1 in
      let* r := replaceNamed prop value rest in
      let (rest', found) := r in
      if negb (String.eqb valName prop)
      then Ret (val :: rest', found)
      else Ret (value :: rest', true)
  end.

(** [AddMore] adjusts the stylemap for an existing property, adding the
    new value into the values list, else adds it as just a new value. *)
Definition AddMore (c : ComputedStyleMap) (name value : string) (priority : bool)
  : exec ComputedStyleMap :=
  if negb (Has c name) then
    Ret (<[ name := {| Name := name; VendorName := name; Value := value;
                       Values := [value]; Priority := priority |} ]> c)
  else
    match c !! name with
    | None => Fault NilDereference
    | Some m =>
        let setValues vs :=
          <[ name := {| Name := Name m; VendorName := VendorName m;
                        Value := Value m; Values := vs;
                        Priority := Priority m |} ]> c in
        let onlyNone :=
          match Values m with
          | [v0] => String.eqb v0 "none"
          | _ => false
          end in
        if onlyNone then Ret (setValues [value])
        else
          let* prop := index (FindStringSubmatch value) 1 in
          let* r := replaceNamed prop value (Values m) in
          let (vals, found) := r in
          if negb found then Ret (setValues (vals ++ [value])%list)
          else Ret (setValues vals)
    end.

(** *** Colours and units *)

Section Hex.
(** [parseIntBase16], as in the earlier revision, is declared in a file
    that is not among the sources and is taken as a parameter. *)
Variable parseIntBase16 : string -> Z.

(** [doubleString] doubles the given string. *)
Definition doubleString (c : string) : string := c +:+ c.

(** [ToRGB] returns the red, green and blue values as int. *)
Definition ToRGB (hex : string) : exec (Z * Z * Z) :=
  let hex := if HasPrefix hex "#" then TrimPrefix hex "#" else hex in
  if (len hex <? 6)%nat then
    let parts := SplitChars hex in
    let* p0 := index parts 0 in
    let red := parseIntBase16 (doubleString p0) in
    let* p1 := index parts 1 in
    let green := parseIntBase16 (doubleString p1) in
    let* p2 := index parts 2 in
    let blue := parseIntBase16 (doubleString p2) in
    Ret (red, green, blue)
  else
    let* h0 := slice hex 0 2 in
    let red := parseIntBase16 h0 in
    let* h1 := slice hex 2 4 in
    let green := parseIntBase16 h1 in
    let* h2 := slice hex 4 6 in
    let blue := parseIntBase16 h2 in
    Ret (red, green, blue).

(** [RGBA]: [fmt.Sprintf("rgba(%d,%d,%d,%.2f)", r, g, b, float64(alpha)/100)]. *)
Definition RGBA (hex : string) (alpha : Z) : exec string :=
  let* rgb := ToRGB hex in
  let '(r, g, b) := rgb in
  Ret ("rgba(" +:+ fmtInt r +:+ "," +:+ fmtInt g +:+ "," +:+ fmtInt b
               +:+ "," +:+ fmtHundredths alpha +:+ ")").
End Hex.

(** [Vendorize] returns a property name with the different versions
    known according to browsers. *)
Definition Vendorize (u : string) : list string :=
  map (fun vn => "-" +:+ vn +:+ "-" +:+ u) vendorTags.

(** [Unit] returns a valid unit type in the browser: the supplied unit
    if it is standard, else 'px'. *)
Definition Unit (u : string) : string :=
  if String.eqb u "rem" then u
  else if String.eqb u "em" then u
  else if String.eqb u "px" then u
  else if String.eqb u "%" then u
  else if String.eqb u "vw" then u
  else "px".

End Govfx.

(** ** The style map of the earlier revision, [css.go]

    The queries [GetComputedStyle], [GetComputedStyleValueWith] and
    [GetComputedStylePriority] of [css.go] have the text of the later
    revision and are taken from it, as are the browser's types.  The record
    has neither vendor name nor value list, the map is keyed by the raw
    property name, and [Add] replaces the entry. *)

Module VfxStyle.
Import Go.

Record ComputedStyle : Type := {
  Name : string;
  Value : string;
  Priority : bool
}.

Abbreviation ComputedStyleMap := (gmap string ComputedStyle).

Section Dom.
Variable JsObject : Type.
Variable JsString : JsObject -> string.
Variable TrimSpace : string -> string.
Variable Element : Type.
Variable WindowGetComputedStyle :
  Element -> string -> option (Govfx.CSSStyleDeclaration JsObject).

(** One turn of the [range] loop of [GetComputedStyleMap]. *)
Definition rangeStep (css : Govfx.CSSStyleDeclaration JsObject)
    (styleMap : ComputedStyleMap) (entry : string * string) : ComputedStyleMap :=
  let (key, val) := entry in
  let (priority, _) := Govfx.GetComputedStylePriority JsObject JsString TrimSpace css key in
  <[ key := {| Name := key; Value := val; Priority := (0 <? priority)%Z |} ]> styleMap.

Definition GetComputedStyleMap (elem : Element) (ps : string)
  : exec (option ComputedStyleMap * option Govfx.error) :=
  let (css, err) := Govfx.GetComputedStyle JsObject Element WindowGetComputedStyle elem ps in
  match err with
  | Some e => Ret (None, Some e)
  | None =>
      let* css := Govfx.deref css in
      let styleMap := fold_left (rangeStep css) (Govfx.ToMap JsObject css) ∅ in
      Ret (Some styleMap, None)
  end.
End Dom.

(** [Add] adjusts the stylemap with a new property. *)
Definition Add (c : ComputedStyleMap) (name value : string) (priority : bool)
  : ComputedStyleMap :=
  <[ name := {| Name := name; Value := value; Priority := priority |} ]> c.

(** [Has] returns true/false if the property exists. *)
Definition Has (c : ComputedStyleMap) (name : string) : bool :=
  match c !! name with
  | Some _ => true
  | None => false
  end.

(** [Get] retrieves the specific property if it exists. *)
Definition Get (c : ComputedStyleMap) (name : string)
  : option ComputedStyle * option Govfx.error :=
  match c !! name with
  | None => (None, Some Govfx.ErrNotFound)
  | Some cs => (Some cs, None)
  end.

End VfxStyle.

(** ** Reference definitions used to state the properties *)

(** The value of one hexadecimal digit, in either case. *)
Definition hexDigit (c : ascii) : option Z :=
  let b := Go.byte c in
  if Go.between 48 57 c then Some (Z.of_nat b - 48)%Z
  else if Go.between 97 102 c then Some (Z.of_nat b - 87)%Z
  else if Go.between 65 70 c then Some (Z.of_nat b - 55)%Z
  else None.

(** Modelled from the spec: [parseIntBase16] is not among the sources.  The
    spec speaks of base-16 parsing of the colour's digits: the digits are
    read most significant first.  So as to be a total function, this
    instance yields 0 on a string that is not made of hexadecimal digits;
    no property below depends on that value. *)
Fixpoint parseHexFrom (acc : Z) (s : string) : option Z :=
  match s with
  | EmptyString => Some acc
  | String c s' =>
      match hexDigit c with
      | Some d => parseHexFrom (16 * acc + d)%Z s'
      | None => None
      end
  end.

Definition parseIntBase16 (s : string) : Z :=
  match s with
  | EmptyString => 0%Z
  | _ => default 0%Z (parseHexFrom 0 s)
  end.

(** What a helper must do to count as base-16 parsing on the strings the
    colour conversion hands it for a well-formed colour: two digits. *)
Definition parsesBase16 (parse : string -> Z) : Prop :=
  forall a b x y,
    hexDigit a = Some x -> hexDigit b = Some y ->
    parse (String a (String b EmptyString)) = (16 * x + y)%Z.

(** The colour a well-formed digit string denotes: three digits, each
    standing for itself doubled, or six digits, two per component. *)
Definition colourOf (digits : string) : option (Z * Z * Z) :=
  match digits with
  | String a (String b (String c EmptyString)) =>
      x ← hexDigit a; y ← hexDigit b; z ← hexDigit c;
      Some (16 * x + x, 16 * y + y, 16 * z + z)%Z
  | String a (String a' (String b (String b' (String c (String c' EmptyString))))) =>
      x ← hexDigit a; x' ← hexDigit a'; y ← hexDigit b; y' ← hexDigit b';
      z ← hexDigit c; z' ← hexDigit c';
      Some (16 * x + x', 16 * y + y', 16 * z + z')%Z
  | _ => None
  end.

(** The text "rgba(r,g,b,a)" with [a] the hundredths [alpha] as a decimal
    fraction. *)
Definition rgbaText (r g b alpha : Z) : string :=
  "rgba(" +:+ Go.fmtInt r +:+ "," +:+ Go.fmtInt g +:+ "," +:+ Go.fmtInt b
          +:+ "," +:+ Go.fmtHundredths alpha +:+ ")".

(** The input of the colour conversion once an optional leading '#' is
    removed. *)
Definition unhashed (hex : string) : string :=
  if Go.HasPrefix hex "#" then Go.TrimPrefix hex "#" else hex.

(** The units [Unit] lets through. *)
Definition standardUnits : list string := ["rem"; "em"; "px"; "%"; "vw"].

(** A name carries a vendor prefix when it starts with one of the vendor
    tags, bare or between hyphens. *)
Definition vendorPrefixes : list string :=
  flat_map (fun vo => [vo; "-" +:+ vo +:+ "-"]) Govfx.vendorTags.

Definition carriesVendorPrefix (name : string) : bool :=
  existsb (Go.HasPrefix name) vendorPrefixes.

(** The reading of "total from three characters on" for a given way
    [chars] of counting the characters of a string: a shorter input
    faults, any other input returns. *)
Definition totalFromThree (parse : string -> Z) (chars : string -> nat) : Prop :=
  forall hex,
    ((chars (unhashed hex) < 3)%nat -> faults (Govfx.ToRGB parse hex))
    ∧ ((3 <= chars (unhashed hex))%nat -> returns (Govfx.ToRGB parse hex)).

Definition bytes (l : list nat) : string :=
  string_of_list_ascii (map ascii_of_nat l).

(** Two euro signs (E2 82 AC each): two characters in six bytes. *)
Definition twoEuros : string := bytes [226; 130; 172; 226; 130; 172].

(** An e with acute accent (C3 A9) and the digit 1: two characters in
    three bytes. *)
Definition accentAndDigit : string := bytes [195; 169; 49].

(** A page for the examples: one element whose computed style lists three
    properties, one of them marked important. *)
Definition samplePriority (prop : string) : option string :=
  if String.eqb prop "color" then Some "important"
  else if String.eqb prop "-moz-transform" then Some ""
  else None.

Definition sampleStyle : Govfx.CSSStyleDeclaration string :=
  {| Govfx.getPropertyValue := fun prop =>
       if String.eqb prop "color" then Some "red" else None;
     Govfx.getPropertyPriority := samplePriority;
     Govfx.ToMap := [("color", "red"); ("-moz-transform", "none");
                     ("-webkit-transform", "scale(2)")] |}.

Definition sampleWindow (elem : nat) (ps : string)
  : option (Govfx.CSSStyleDeclaration string) :=
  match elem with
  | O => Some sampleStyle
  | S _ => None
  end.

(** White space trimming for strings of ASCII characters, standing in for
    [strings.TrimSpace] in the examples: tab, line feed, vertical tab, form
    feed, carriage return and space are cut off both ends. *)
Definition isAsciiSpace (c : ascii) : bool :=
  Go.between 9 13 c || (Go.byte c =? 32)%nat.

Fixpoint trimLeft (s : string) : string :=
  match s with
  | String c s' => if isAsciiSpace c then trimLeft s' else s
  | EmptyString => EmptyString
  end.

Definition trimSpaceAscii (s : string) : string :=
  String.rev (trimLeft (String.rev (trimLeft s))).

(** The priority string of a property marks it important when it is there
    and not blank. *)
Definition marksImportant {JsObject : Type} (JsString : JsObject -> string)
    (TrimSpace : string -> string)
    (css : Govfx.CSSStyleDeclaration JsObject) (key : string) : Prop :=
  exists vs, Govfx.getPropertyPriority JsObject css key = Some vs
             ∧ TrimSpace (JsString vs) <> EmptyString.

(** What the loop of [GetComputedStyleMap] keeps true of every record in
    the map: it sits under its own name, which is the cleaned-up form of
    the key it was made from, and its priority flag is that key's. *)
Definition recordOf {JsObject : Type} (JsString : JsObject -> string)
    (TrimSpace : string -> string) (css : Govfx.CSSStyleDeclaration JsObject)
    (name : string) (cs : Govfx.ComputedStyle) : Prop :=
  Govfx.Name cs = name
  ∧ name = Govfx.unvendoredName (Govfx.VendorName cs)
  ∧ (exists val, In (Govfx.VendorName cs, val) (Govfx.ToMap JsObject css)
                 ∧ Govfx.Value cs = val)
  ∧ (Govfx.Priority cs = true
     <-> marksImportant JsString TrimSpace css (Govfx.VendorName cs)).

(** The leading function name of a value, as the pattern [propName]
    extracts it: group 1 of the match, if there is a match. *)
Definition leadingName (v : string) : option string :=
  nth_error (Go.FindStringSubmatch v) 1.

Definition sameLeadingName (value entry : string) : bool :=
  match leadingName value, leadingName entry with
  | Some a, Some b => String.eqb a b
  | _, _ => false
  end.

(** Merge-or-append in the words of the description: a list that is just
    "none" is overwritten; otherwise the entries with the leading name of
    the new value are replaced in place, and if there is none the value is
    appended. *)
Definition mergeOrAppend (values : list string) (value : string) : list string :=
  if bool_decide (values = ["none"]) then [value]
  else if existsb (sameLeadingName value) values
       then map (fun entry => if sameLeadingName value entry then value else entry) values
       else (values ++ [value])%list.

Definition mergedMap (c : gmap string Govfx.ComputedStyle)
    (name value : string) (priority : bool) : gmap string Govfx.ComputedStyle :=
  match c !! name with
  | None =>
      <[ name := {| Govfx.Name := name; Govfx.VendorName := name;
                    Govfx.Value := value; Govfx.Values := [value];
                    Govfx.Priority := priority |} ]> c
  | Some m =>
      <[ name := {| Govfx.Name := Govfx.Name m; Govfx.VendorName := Govfx.VendorName m;
                    Govfx.Value := Govfx.Value m;
                    Govfx.Values := mergeOrAppend (Govfx.Values m) value;
                    Govfx.Priority := Govfx.Priority m |} ]> c
  end.

(** The values [AddMore] has to take names from all have one: nothing to
    ask for a new property or a list that is just "none", and otherwise
    the new value and every entry of the list match [propName]. *)
Definition allNamed (c : gmap string Govfx.ComputedStyle) (name value : string) : bool :=
  match c !! name with
  | None => true
  | Some m =>
      bool_decide (Govfx.Values m = ["none"])
      || (bool_decide (is_Some (leadingName value))
          && forallb (fun entry => bool_decide (is_Some (leadingName entry)))
                     (Govfx.Values m))
  end.

(** A computed style whose only property carries the webkit prefix. *)
Definition webkitStyle : Govfx.CSSStyleDeclaration string :=
  {| Govfx.getPropertyValue := fun _ => None;
     Govfx.getPropertyPriority := fun _ => Some EmptyString;
     Govfx.ToMap := [("-webkit-transform", "scale(2)")] |}.

(** The record the loop of [GetComputedStyleMap] makes for one entry of
    the computed style. *)
Definition styleRecord {JsObject : Type} (JsString : JsObject -> string)
    (TrimSpace : string -> string) (css : Govfx.CSSStyleDeclaration JsObject)
    (key val : string) : Govfx.ComputedStyle :=
  {| Govfx.Name := Govfx.unvendoredName key;
     Govfx.VendorName := key;
     Govfx.Value := val;
     Govfx.Values := if String.eqb (TrimSpace val) "none" then [] else [val];
     Govfx.Priority :=
       (0 <? fst (Govfx.GetComputedStylePriority JsObject JsString TrimSpace css key))%Z |}.

(** The entry visited last among those whose key cleans up to [name]. *)
Definition lastVisited (name : string) (entries : list (string * string))
  : option (string * string) :=
  find (fun entry => bool_decide (Govfx.unvendoredName (fst entry) = name))
       (rev entries).

(** The names under which the entries of a computed style are stored. *)
Definition cleanNames (entries : list (string * string)) : list string :=
  map (fun entry => Govfx.unvendoredName (fst entry)) entries.

(** A record of the later revision seen as one of the earlier: name, value
    and priority. *)
Definition plain (cs : Govfx.ComputedStyle) : VfxStyle.ComputedStyle :=
  {| VfxStyle.Name := Govfx.Name cs;
     VfxStyle.Value := Govfx.Value cs;
     VfxStyle.Priority := Govfx.Priority cs |}.

(** The leading names of the entries of a value list. *)
Definition leadingNames (values : list string) : list (option string) :=
  map leadingName values.

(** A character below 128: a UTF-8 sequence of its own. *)
Definition isAscii (c : ascii) : bool := (Go.byte c <? 128)%nat.

(** The sample style with its entries visited in the opposite order. *)
Definition sampleStyleReversed : Govfx.CSSStyleDeclaration string :=
  {| Govfx.getPropertyValue := Govfx.getPropertyValue string sampleStyle;
     Govfx.getPropertyPriority := samplePriority;
     Govfx.ToMap := rev (Govfx.ToMap string sampleStyle) |}.

(** One turn of the clean-up loop, for the tag [vo]. *)
Definition stripTag (vo name : string) : string :=
  Go.TrimPrefix (Go.TrimPrefix name vo) ("-" +:+ vo +:+ "-").

(** [t] is what is left of [s] once something is cut off its front. *)
Definition isTailOf (t s : string) : Prop := exists front, s = front +:+ t.

(** Every record of the map carries the name it is stored under. *)
Definition namedByKey (c : gmap string Govfx.ComputedStyle) : Prop :=
  forall key m, c !! key = Some m -> Govfx.Name m = key.

(** A computed style none of whose keys carries a vendor prefix. *)
Definition plainStyle : Govfx.CSSStyleDeclaration string :=
  {| Govfx.getPropertyValue := fun _ => None;
     Govfx.getPropertyPriority := samplePriority;
     Govfx.ToMap := [("color", "red"); ("margin-top", "3px")] |}.

(** A computed style with one property, whose value is the empty string. *)
Definition emptyValueStyle : Govfx.CSSStyleDeclaration string :=
  {| Govfx.getPropertyValue := fun _ => Some EmptyString;
     Govfx.getPropertyPriority := fun _ => Some EmptyString;
     Govfx.ToMap := [("transform", EmptyString)] |}.

(** ** Properties *)

(** *** Units *)

(** C10.  [Unit] returns its argument unchanged when it is one of "rem",
    "em", "px", "%", "vw" and "px" for every other string; hence its result
    is always one of the five, and [Unit] is idempotent. *)
Theorem Unit_standard_or_px (u : string) :
  Govfx.Unit u = (if bool_decide (u ∈ standardUnits) then u else "px")
  ∧ Govfx.Unit u ∈ standardUnits
  ∧ Govfx.Unit (Govfx.Unit u) = Govfx.Unit u.
Proof.
  assert (Hcases : u = "rem" ∨ u = "em" ∨ u = "px" ∨ u = "%" ∨ u = "vw"
                   ∨ ((u ∉ standardUnits) ∧ Govfx.Unit u = "px")).
  { unfold Govfx.Unit, standardUnits.
    destruct (String.eqb_spec u "rem"); [tauto|].
    destruct (String.eqb_spec u "em"); [tauto|].
    destruct (String.eqb_spec u "px"); [tauto|].
    destruct (String.eqb_spec u "%"); [tauto|].
    destruct (String.eqb_spec u "vw"); [tauto|].
    do 5 right. split; [|reflexivity].
    rewrite !elem_of_cons, elem_of_nil. tauto. }
  destruct Hcases as [->|[->|[->|[->|[->|[Hout Hpx]]]]]];
    try (split; [reflexivity | split; [vm_compute; set_solver | reflexivity]]).
  rewrite Hpx, bool_decide_eq_false_2 by exact Hout.
  split; [reflexivity | split; [unfold standardUnits; set_solver | reflexivity]].
Qed.

(** *** The style map *)

(** C4.  Adding a property to an empty style map and then retrieving it
    succeeds, and the record found carries the value and the priority
    that were supplied. *)
Theorem Get_after_Add_on_empty (name value : string) (priority : bool) :
  exists cs,
    Govfx.Get (Govfx.Add ∅ name value priority) name = (Some cs, None)
    ∧ Govfx.Value cs = value
    ∧ Govfx.Priority cs = priority.
Proof.
  unfold Govfx.Add, Govfx.Has. rewrite lookup_empty. cbn [negb].
  unfold Govfx.Get. rewrite lookup_insert_eq.
  eexists. split; [reflexivity | split; reflexivity].
Qed.

(** C5.  A query for what does not exist returns the sentinel error and no
    value: [Get] answers [ErrNotFound] exactly for a name the map lacks,
    [GetComputedStyle] and [GetComputedStyleValueWith] answer it exactly
    when the browser's lookup yields nothing, and in each case the value
    returned beside the error is nil, while a successful lookup is handed
    on as it is, with no error. *)
Theorem not_found_is_reported
    (JsObject Element : Type)
    (Window : Element -> string -> option (Govfx.CSSStyleDeclaration JsObject)) :
  (forall (c : gmap string Govfx.ComputedStyle) name,
      (snd (Govfx.Get c name) = Some Govfx.ErrNotFound <-> c !! name = None)
      ∧ fst (Govfx.Get c name) = c !! name)
  ∧ (forall elem ps,
      (snd (Govfx.GetComputedStyle JsObject Element Window elem ps)
         = Some Govfx.ErrNotFound <-> Window elem ps = None)
      ∧ fst (Govfx.GetComputedStyle JsObject Element Window elem ps)
         = Window elem ps)
  ∧ (forall css prop,
      (snd (Govfx.GetComputedStyleValueWith JsObject css prop)
         = Some Govfx.ErrNotFound <-> Govfx.getPropertyValue JsObject css prop = None)
      ∧ fst (Govfx.GetComputedStyleValueWith JsObject css prop)
         = Govfx.getPropertyValue JsObject css prop).
Proof.
  split; [|split].
  - intros c name. unfold Govfx.Get.
    destruct (c !! name); cbn; split; try reflexivity; split; congruence.
  - intros elem ps. unfold Govfx.GetComputedStyle.
    destruct (Window elem ps); cbn; split; try reflexivity; split; congruence.
  - intros css prop. unfold Govfx.GetComputedStyleValueWith.
    destruct (Govfx.getPropertyValue JsObject css prop); cbn;
      split; try reflexivity; split; congruence.
Qed.

(** *** Vendor names *)

Lemma TrimPrefix_without_prefix (s pre : string) :
  Go.HasPrefix s pre = false -> Go.TrimPrefix s pre = s.
Proof. unfold Go.TrimPrefix. intros ->. reflexivity. Qed.

(** C2.  Stripping leaves a name without vendor prefix as it is: when the
    name starts with none of the vendor tags, bare or between hyphens, the
    clean-up of [GetComputedStyleMap] returns it unchanged. *)
Theorem unvendoredName_without_prefix (name : string) :
  carriesVendorPrefix name = false ->
  Govfx.unvendoredName name = name.
Proof.
  unfold carriesVendorPrefix, vendorPrefixes. cbn [flat_map Govfx.vendorTags app existsb].
  intros H.
  repeat match type of H with
         | (_ || _)%bool = false => apply orb_false_elim in H as [? H]
         end.
  unfold Govfx.unvendoredName. cbn [fold_left Govfx.vendorTags].
  repeat match goal with
         | Hp : Go.HasPrefix name ?p = false |- _ =>
             rewrite (TrimPrefix_without_prefix name _ Hp); clear Hp
         end.
  reflexivity.
Qed.

(** Stripping once is not always stripping for good: a tag can uncover
    another one. *)
Example unvendoredName_uncovers_tag :
  Govfx.unvendoredName "msmoz-x" = "moz-x"
  ∧ Govfx.unvendoredName "moz-x" = "-x".
Proof. split; reflexivity. Qed.

Lemma unvendoredName_without_prefix_witness :
  carriesVendorPrefix "margin-top" = false
  ∧ Govfx.unvendoredName "margin-top" = "margin-top".
Proof.
  split; [reflexivity | apply (unvendoredName_without_prefix "margin-top"); reflexivity].
Defined.

(** *** Hexadecimal colours *)

Lemma index_length {A : Type} (a : list A) (i : nat) :
  returns (Go.index a i) <-> (i < List.length a)%nat.
Proof.
  unfold Go.index, returns. split.
  - intros [x Hx]. destruct (nth_error a i) eqn:E; [|discriminate].
    apply nth_error_Some. congruence.
  - intros Hlt. apply nth_error_Some in Hlt.
    destruct (nth_error a i); [eauto | congruence].
Qed.

Lemma slice_within (s : string) (i j : nat) :
  (i <= j)%nat -> (j <= Go.len s)%nat ->
  Go.slice s i j = Ret (String.substring i (j - i) s).
Proof.
  intros Hij Hj. unfold Go.slice.
  apply Nat.leb_le in Hij, Hj. rewrite Hij, Hj. reflexivity.
Qed.

Lemma len_drop (n : nat) (s : string) : Go.len (Go.drop n s) = (Go.len s - n)%nat.
Proof.
  revert s. induction n as [|n IH]; intros [|c s]; cbn; try reflexivity.
  apply IH.
Qed.

Lemma decodeSize_positive (c : ascii) (s : string) :
  (1 <= Go.decodeSize (String c s))%nat.
Proof. unfold Go.decodeSize. repeat case_match; lia. Qed.

Lemma explodeLoop_length (fuel : nat) (s : string) :
  (List.length (Go.explodeLoop fuel s) <= Go.len s)%nat.
Proof.
  revert s. induction fuel as [|fuel IH]; intros s; cbn; [lia|].
  destruct s as [|c s]; [cbn; lia|].
  cbn [List.length]. specialize (IH (Go.drop (Go.decodeSize (String c s)) (String c s))).
  rewrite len_drop in IH.
  pose proof (decodeSize_positive c s). cbn [Go.len String.length] in *. lia.
Qed.

Lemma RuneCountInString_le_len (s : string) :
  (Go.RuneCountInString s <= Go.len s)%nat.
Proof. apply explodeLoop_length. Qed.

Lemma Vfx_RGBA_through_ToRGB (parse : string -> Z) (hex : string) (alpha : Z) :
  Vfx.RGBA parse hex alpha = Govfx.RGBA parse hex alpha.
Proof.
  unfold Vfx.RGBA, Govfx.RGBA, Govfx.ToRGB.
  destruct (Go.len _ <? 6)%nat.
  - destruct (Go.index _ 0) as [p0|f0]; cbn; [|reflexivity].
    destruct (Go.index _ 1) as [p1|f1]; cbn; [|reflexivity].
    destruct (Go.index _ 2) as [p2|f2]; cbn; reflexivity.
  - destruct (Go.slice _ 0 2) as [h0|f0]; cbn; [|reflexivity].
    destruct (Go.slice _ 2 4) as [h1|f1]; cbn; [|reflexivity].
    destruct (Go.slice _ 4 6) as [h2|f2]; cbn; reflexivity.
Qed.

(** C9.  The two revisions of the hex-to-RGBA conversion agree: on every
    hex string and alpha value, [RGBA] of [css.go] and [RGBA] of the later
    file, which goes through [ToRGB], give the same outcome, be it the
    same string or the same fault.  Both call the helper [parseIntBase16]
    of their package, taken to be the same function. *)
Theorem RGBA_revisions_agree (parse : string -> Z) (hex : string) (alpha : Z) :
  Vfx.RGBA parse hex alpha = Govfx.RGBA parse hex alpha.
Proof. exact (Vfx_RGBA_through_ToRGB parse hex alpha). Qed.

Lemma RGBA_returns_iff_ToRGB (parse : string -> Z) (hex : string) (alpha : Z) :
  returns (Govfx.RGBA parse hex alpha) <-> returns (Govfx.ToRGB parse hex).
Proof.
  unfold Govfx.RGBA, returns.
  destruct (Govfx.ToRGB parse hex) as [[[r g] b]|f]; cbn; split;
    intros [x Hx]; try discriminate; eauto.
Qed.

Lemma ToRGB_returns_iff (parse : string -> Z) (hex : string) :
  returns (Govfx.ToRGB parse hex)
  <-> (3 <= Go.RuneCountInString (unhashed hex))%nat ∨ (6 <= Go.len (unhashed hex))%nat.
Proof.
  unfold Govfx.ToRGB. fold (unhashed hex).
  destruct (Nat.ltb_spec (Go.len (unhashed hex)) 6) as [Hlt|Hge].
  - unfold Go.SplitChars, Go.RuneCountInString.
    destruct (Go.explode (unhashed hex)) as [|p0 [|p1 [|p2 ps]]]; cbn;
      unfold returns; split;
      try (intros [x Hx]; discriminate); try (intros [?|?]; lia);
      try (intros; left; lia); eauto.
  - rewrite !slice_within by lia. cbn. unfold returns. split; eauto.
Qed.

Lemma ToRGB_fault_kind (parse : string -> Z) (hex : string) :
  returns (Govfx.ToRGB parse hex) ∨ Govfx.ToRGB parse hex = Fault IndexOutOfRange.
Proof.
  unfold Govfx.ToRGB. fold (unhashed hex).
  destruct (Nat.ltb_spec (Go.len (unhashed hex)) 6) as [Hlt|Hge].
  - unfold Go.SplitChars.
    destruct (Go.explode (unhashed hex)) as [|p0 [|p1 [|p2 ps]]]; cbn;
      unfold returns; eauto.
  - rewrite !slice_within by lia. cbn. unfold returns. eauto.
Qed.

Lemma not_returns_fault {A : Type} (m : exec A) : returns m -> ~ faults m.
Proof. intros [a ->] [f Hf]. discriminate. Qed.

(** C8, amended.  [ToRGB], and with it [RGBA] in both revisions, returns
    exactly when the input, once an optional leading '#' is removed, splits
    into at least three characters (UTF-8 sequences) or is at least six
    bytes long, and faults with an index out of range on every other input.
    A string has no more characters than bytes, so every input shorter
    than three bytes, the empty string among them, faults. *)
Theorem ToRGB_total_iff (parse : string -> Z) (hex : string) (alpha : Z) :
  (returns (Govfx.ToRGB parse hex)
   <-> (3 <= Go.RuneCountInString (unhashed hex))%nat ∨ (6 <= Go.len (unhashed hex))%nat)
  ∧ (Govfx.ToRGB parse hex = Fault IndexOutOfRange
     <-> (Go.RuneCountInString (unhashed hex) < 3)%nat ∧ (Go.len (unhashed hex) < 6)%nat)
  ∧ (returns (Govfx.RGBA parse hex alpha) <-> returns (Govfx.ToRGB parse hex))
  ∧ (returns (Vfx.RGBA parse hex alpha) <-> returns (Govfx.ToRGB parse hex))
  ∧ (Go.RuneCountInString (unhashed hex) <= Go.len (unhashed hex))%nat
  ∧ Govfx.ToRGB parse EmptyString = Fault IndexOutOfRange.
Proof.
  pose proof (ToRGB_returns_iff parse hex) as Hret.
  split; [exact Hret|]. split; [|split; [|split; [|split]]].
  - split.
    + intros Hf.
      assert (Hno : ~ returns (Govfx.ToRGB parse hex)).
      { intros [x Hx]. congruence. }
      rewrite Hret in Hno. lia.
    + intros [Hc Hl]. destruct (ToRGB_fault_kind parse hex) as [Hr|Hf]; [|exact Hf].
      apply Hret in Hr. lia.
  - apply RGBA_returns_iff_ToRGB.
  - rewrite Vfx_RGBA_through_ToRGB. apply RGBA_returns_iff_ToRGB.
  - apply RuneCountInString_le_len.
  - reflexivity.
Qed.

(** Every input of fewer than three bytes after the '#' faults. *)
Lemma ToRGB_short_input_faults (parse : string -> Z) (hex : string) :
  (Go.len (unhashed hex) < 3)%nat ->
  Govfx.ToRGB parse hex = Fault IndexOutOfRange.
Proof.
  intros Hshort.
  destruct (ToRGB_fault_kind parse hex) as [Hr|Hf]; [|exact Hf].
  apply ToRGB_returns_iff in Hr.
  pose proof (RuneCountInString_le_len (unhashed hex)). lia.
Qed.

(** C8 as stated does not hold, whether its characters are counted as
    bytes or as UTF-8 sequences: an accented letter and a digit make three
    bytes and yet fault, two euro signs make two characters and yet
    return. *)
Lemma ToRGB_three_characters_counterexample :
  ~ totalFromThree parseIntBase16 Go.len
  ∧ ~ totalFromThree parseIntBase16 Go.RuneCountInString.
Proof.
  split; intros Hclaim.
  - destruct (Hclaim accentAndDigit) as [_ Hret].
    assert (Hr : returns (Govfx.ToRGB parseIntBase16 accentAndDigit)).
    { apply Hret. vm_compute. lia. }
    destruct Hr as [x Hx]. vm_compute in Hx. discriminate.
  - destruct (Hclaim twoEuros) as [Hfault _].
    assert (Hf : faults (Govfx.ToRGB parseIntBase16 twoEuros)).
    { apply Hfault. vm_compute. lia. }
    destruct Hf as [f Hf]. vm_compute in Hf. discriminate.
Qed.

Lemma hexDigit_ascii (c : ascii) (x : Z) :
  hexDigit c = Some x -> Go.lead c = None ∧ c <> "#"%char ∧ (0 <= x <= 15)%Z.
Proof.
  destruct c as [[] [] [] [] [] [] [] []]; vm_compute; intros H;
    try discriminate; injection H as <-;
    (split; [reflexivity | split; [discriminate | split; discriminate]]).
Qed.

Lemma HasPrefix_cons (c d : ascii) (s : string) :
  Go.HasPrefix (String c s) (String d EmptyString) = bool_decide (d = c).
Proof.
  unfold Go.HasPrefix.
  change (String.prefix (String d EmptyString) (String c s))
    with (if ascii_dec d c then String.prefix EmptyString s else false).
  destruct (ascii_dec d c) as [E|E].
  - rewrite bool_decide_eq_true_2 by exact E. destruct s; reflexivity.
  - rewrite bool_decide_eq_false_2 by exact E. reflexivity.
Qed.

Lemma unhashed_digits (c : ascii) (s : string) (x : Z) :
  hexDigit c = Some x ->
  unhashed (String c s) = String c s ∧ unhashed ("#" +:+ String c s) = String c s.
Proof.
  intros Hc. apply hexDigit_ascii in Hc as (_ & Hne & _).
  change ("#" +:+ String c s) with (String "#" (String c s)).
  unfold unhashed, Go.TrimPrefix. rewrite !HasPrefix_cons.
  rewrite bool_decide_eq_false_2 by congruence.
  rewrite bool_decide_eq_true_2 by reflexivity.
  split; reflexivity.
Qed.

Lemma explode_three_ascii (a b c : ascii) :
  Go.lead a = None -> Go.lead b = None -> Go.lead c = None ->
  Go.explode (String a (String b (String c EmptyString)))
  = [String a EmptyString; String b EmptyString; String c EmptyString].
Proof.
  intros Ha Hb Hc. unfold Go.explode. cbn [Go.len String.length Go.explodeLoop].
  unfold Go.decodeSize. rewrite Ha. cbn. rewrite Hb. cbn. rewrite Hc. reflexivity.
Qed.

Lemma colourOf_range (digits : string) (r g b : Z) :
  colourOf digits = Some (r, g, b) ->
  (0 <= r <= 255 ∧ 0 <= g <= 255 ∧ 0 <= b <= 255)%Z.
Proof.
  unfold colourOf. intros H.
  repeat (case_match; try discriminate); simplify_option_eq;
    repeat match goal with
           | Hd : hexDigit _ = Some _ |- _ =>
               apply hexDigit_ascii in Hd as (_ & _ & ?)
           end; lia.
Qed.

Lemma ToRGB_of_colour (parse : string -> Z) (digits hex : string) (r g b : Z) :
  parsesBase16 parse ->
  colourOf digits = Some (r, g, b) ->
  hex = digits ∨ hex = "#" +:+ digits ->
  Govfx.ToRGB parse hex = Ret (r, g, b).
Proof.
  intros Hparse Hcol Hhex. unfold colourOf in Hcol.
  destruct digits as [|c0 [|c1 [|c2 [|c3 [|c4 [|c5 [|c6 rest]]]]]]];
    try discriminate; simplify_option_eq.
  - (* three digits *)
    match goal with H0 : hexDigit c0 = Some _ |- _ =>
      pose proof (unhashed_digits c0 (String c1 (String c2 EmptyString)) _ H0) as [U1 U2] end.
    unfold Govfx.ToRGB. fold (unhashed hex).
    assert (Hu : unhashed hex = String c0 (String c1 (String c2 EmptyString)))
      by (destruct Hhex as [->| ->]; assumption).
    rewrite Hu. cbn [Go.len String.length Nat.ltb Nat.leb].
    unfold Go.SplitChars. rewrite explode_three_ascii;
      try (eapply hexDigit_ascii; eassumption).
    cbn. unfold Govfx.doubleString. cbv [String.append].
    repeat erewrite Hparse by eassumption. reflexivity.
  - (* six digits *)
    match goal with H0 : hexDigit c0 = Some _ |- _ =>
      pose proof (unhashed_digits c0
        (String c1 (String c2 (String c3 (String c4 (String c5 EmptyString))))) _ H0)
        as [U1 U2] end.
    unfold Govfx.ToRGB. fold (unhashed hex).
    assert (Hu : unhashed hex
                 = String c0 (String c1 (String c2 (String c3 (String c4 (String c5 EmptyString))))))
      by (destruct Hhex as [->| ->]; assumption).
    rewrite Hu. cbn.
    repeat erewrite Hparse by eassumption. reflexivity.
Qed.

Lemma parseIntBase16_parsesBase16 : parsesBase16 parseIntBase16.
Proof.
  intros a b x y Ha Hb. unfold parseIntBase16. cbn. rewrite Ha, Hb. cbn. lia.
Qed.

(** C1.  For every well-formed colour of three or six hexadecimal digits,
    with or without a leading '#', [RGBA] (in both revisions) returns the
    text "rgba(r,g,b,a)" whose r, g, b are the decimal components of the
    colour, a three-digit colour standing for its digits doubled, and
    whose a is alpha/100 with two decimals; in particular "fff" with alpha
    50 gives "rgba(255,255,255,0.50)".  The helper [parseIntBase16] is
    assumed to parse two hexadecimal digits in base 16. *)
Theorem RGBA_of_hex_colour (parse : string -> Z) (digits hex : string)
    (r g b alpha : Z) :
  parsesBase16 parse ->
  colourOf digits = Some (r, g, b) ->
  hex = digits ∨ hex = "#" +:+ digits ->
  Govfx.RGBA parse hex alpha = Ret (rgbaText r g b alpha)
  ∧ Vfx.RGBA parse hex alpha = Ret (rgbaText r g b alpha)
  ∧ Govfx.RGBA parse "fff" 50 = Ret "rgba(255,255,255,0.50)"
  ∧ Vfx.RGBA parse "fff" 50 = Ret "rgba(255,255,255,0.50)".
Proof.
  intros Hparse Hcol Hhex.
  assert (Hgen : forall d h x y z a, colourOf d = Some (x, y, z) ->
                   h = d ∨ h = "#" +:+ d ->
                   Govfx.RGBA parse h a = Ret (rgbaText x y z a)).
  { intros d h x y z a Hd Hh. unfold Govfx.RGBA.
    rewrite (ToRGB_of_colour parse d h x y z Hparse Hd Hh). reflexivity. }
  assert (Hfff : Govfx.RGBA parse "fff" 50 = Ret "rgba(255,255,255,0.50)").
  { rewrite (Hgen "fff" "fff" 255 255 255 50)%Z; [reflexivity | reflexivity | now left]. }
  rewrite !Vfx_RGBA_through_ToRGB.
  pose proof (Hgen digits hex r g b alpha Hcol Hhex) as Hmain.
  repeat split; assumption.
Qed.

Lemma RGBA_of_hex_colour_witness :
  parsesBase16 parseIntBase16
  ∧ colourOf "1a2B3c" = Some (26, 43, 60)%Z
  ∧ Govfx.RGBA parseIntBase16 "#1a2B3c" 100 = Ret "rgba(26,43,60,1.00)".
Proof.
  split; [exact parseIntBase16_parsesBase16 | split; [reflexivity|]].
  apply (RGBA_of_hex_colour parseIntBase16 "1a2B3c" "#1a2B3c" 26 43 60 100).
  - exact parseIntBase16_parsesBase16.
  - reflexivity.
  - right. reflexivity.
Defined.

(** *** The map of computed styles *)

Section StyleMap.
Context {JsObject Element : Type}.
Variable JsString : JsObject -> string.
Variable TrimSpace : string -> string.
Variable Window : Element -> string -> option (Govfx.CSSStyleDeclaration JsObject).

Lemma GetComputedStylePriority_flag (css : Govfx.CSSStyleDeclaration JsObject)
    (prop : string) :
  let priority := fst (Govfx.GetComputedStylePriority JsObject JsString TrimSpace css prop) in
  (priority = 0 ∨ priority = 1)%Z
  ∧ ((0 <? priority)%Z = true <-> marksImportant JsString TrimSpace css prop).
Proof.
  unfold Govfx.GetComputedStylePriority, marksImportant.
  destruct (Govfx.getPropertyPriority JsObject css prop) as [vs|]; cbn.
  - destruct (String.eqb_spec (TrimSpace (JsString vs)) "") as [E|E]; cbn.
    + split; [now left|]. split; [discriminate|].
      intros (vs' & Hvs & Hne). congruence.
    + split; [now right|]. split; [eauto | reflexivity].
  - split; [now left|]. split; [discriminate|].
    intros (vs' & Hvs & _). discriminate.
Qed.

Lemma rangeStep_keeps_records (css : Govfx.CSSStyleDeclaration JsObject)
    (entries : list (string * string)) :
  forall styleMap : gmap string Govfx.ComputedStyle,
    (forall e, In e entries -> In e (Govfx.ToMap JsObject css)) ->
    (forall name cs, styleMap !! name = Some cs -> recordOf JsString TrimSpace css name cs) ->
    forall name cs,
      fold_left (Govfx.rangeStep JsObject JsString TrimSpace css) entries styleMap
        !! name = Some cs ->
      recordOf JsString TrimSpace css name cs.
Proof.
  induction entries as [|[key val] entries IH]; intros styleMap Hsub Hinv; cbn [fold_left].
  - exact Hinv.
  - apply IH.
    + intros e He. apply Hsub. now right.
    + intros name cs. unfold Govfx.rangeStep.
      pose proof (GetComputedStylePriority_flag css key) as [_ Hflag].
      destruct (Govfx.GetComputedStylePriority JsObject JsString TrimSpace css key)
        as [priority err]. cbn [fst] in Hflag.
      destruct (decide (Govfx.unvendoredName key = name)) as [<-|Hne].
      * rewrite lookup_insert_eq. intros [= <-].
        unfold recordOf. cbn.
        split; [reflexivity | split; [reflexivity | split; [|exact Hflag]]].
        exists val. split; [apply Hsub; now left | reflexivity].
      * rewrite lookup_insert_ne by exact Hne. apply Hinv.
Qed.

End StyleMap.

(** C3, at the key "-webkit-transform".  The clean-up strips the moz
    prefix but does not recognise the webkit prefix, the tag list spelling
    it "webki": the name comes back as it went in, and the map built from a
    style with that one key has its record under the vendored key and
    nothing under "transform". *)
Theorem webkit_key_stays_vendored :
  let styleMap :=
    fold_left (Govfx.rangeStep string id trimSpaceAscii webkitStyle)
              (Govfx.ToMap string webkitStyle) ∅ in
  Govfx.unvendoredName "-moz-transform" = "transform"
  ∧ Govfx.unvendoredName "-webkit-transform" = "-webkit-transform"
  ∧ Govfx.GetComputedStyleMap string id trimSpaceAscii nat
      (fun _ _ => Some webkitStyle) 0 "" = Ret (Some styleMap, None)
  ∧ styleMap !! "transform" = None
  ∧ styleMap !! "-webkit-transform"
    = Some {| Govfx.Name := "-webkit-transform";
              Govfx.VendorName := "-webkit-transform";
              Govfx.Value := "scale(2)";
              Govfx.Values := ["scale(2)"];
              Govfx.Priority := false |}.
Proof.
  cbv zeta. split; [reflexivity | split; [reflexivity | split; [reflexivity|]]].
  split; vm_compute; reflexivity.
Qed.

(** *** Multi-value properties *)

Lemma index_leadingName (v : string) :
  Go.index (Go.FindStringSubmatch v) 1
  = match leadingName v with
    | Some n => Ret n
    | None => Fault IndexOutOfRange
    end.
Proof. reflexivity. Qed.

Lemma replaceNamed_merge (prop value : string) (vals : list string) :
  leadingName value = Some prop ->
  forallb (fun entry => bool_decide (is_Some (leadingName entry))) vals = true ->
  Govfx.replaceNamed prop value vals
  = Ret (map (fun entry => if sameLeadingName value entry then value else entry) vals,
         existsb (sameLeadingName value) vals).
Proof.
  intros Hprop. induction vals as [|val rest IH]; cbn [forallb]; intros Hall.
  - reflexivity.
  - apply andb_prop in Hall as [Hval Hrest].
    apply bool_decide_eq_true in Hval as [n Hn].
    cbn [Govfx.replaceNamed map existsb]. rewrite index_leadingName, Hn. cbn [bind].
    rewrite (IH Hrest). cbn [bind].
    assert (Hsame : sameLeadingName value val = String.eqb n prop).
    { unfold sameLeadingName. rewrite Hprop, Hn. apply String.eqb_sym. }
    rewrite Hsame. destruct (String.eqb n prop); reflexivity.
Qed.

Lemma replaceNamed_unnamed_entry (prop value : string) (vals : list string) :
  forallb (fun entry => bool_decide (is_Some (leadingName entry))) vals = false ->
  Govfx.replaceNamed prop value vals = Fault IndexOutOfRange.
Proof.
  induction vals as [|val rest IH]; cbn [forallb]; intros Hall; [discriminate|].
  cbn [Govfx.replaceNamed]. rewrite index_leadingName.
  destruct (leadingName val) as [n|] eqn:Hn; [|reflexivity].
  rewrite bool_decide_eq_true_2 in Hall by eauto. cbn in Hall.
  cbn [bind]. rewrite (IH Hall). reflexivity.
Qed.

Lemma map_replace_none (value : string) (vals : list string) :
  existsb (sameLeadingName value) vals = false ->
  map (fun entry => if sameLeadingName value entry then value else entry) vals = vals.
Proof.
  induction vals as [|val rest IH]; cbn; [reflexivity|].
  intros H. apply orb_false_elim in H as [-> Hrest]. now rewrite IH.
Qed.

Lemma onlyNone_decide (vals : list string) :
  match vals with
  | [v0] => String.eqb v0 "none"
  | _ => false
  end = bool_decide (vals = ["none"]).
Proof.
  destruct vals as [|v0 [|v1 rest]].
  - now rewrite bool_decide_eq_false_2.
  - destruct (String.eqb_spec v0 "none") as [->|Hne].
    + now rewrite bool_decide_eq_true_2.
    + rewrite bool_decide_eq_false_2; [reflexivity | congruence].
  - now rewrite bool_decide_eq_false_2.
Qed.

(** What [AddMore] does on every input: merge-or-append when the values it
    takes names from all have one, an index fault when one has none. *)
Lemma AddMore_outcome (c : gmap string Govfx.ComputedStyle)
    (name value : string) (priority : bool) :
  Govfx.AddMore c name value priority
  = if allNamed c name value then Ret (mergedMap c name value priority)
    else Fault IndexOutOfRange.
Proof.
  unfold Govfx.AddMore, Govfx.Has, allNamed, mergedMap, mergeOrAppend.
  destruct (c !! name) as [m|]; cbn [negb]; [|reflexivity].
  rewrite onlyNone_decide.
  destruct (bool_decide (Govfx.Values m = ["none"])); cbn [orb]; [reflexivity|].
  rewrite index_leadingName.
  destruct (leadingName value) as [prop|] eqn:Hprop.
  - rewrite bool_decide_eq_true_2 by eauto. cbn [andb bind].
    destruct (forallb _ (Govfx.Values m)) eqn:Hall.
    + rewrite (replaceNamed_merge prop value _ Hprop Hall). cbn [bind].
      destruct (existsb _ (Govfx.Values m)) eqn:Hfound; cbn [negb]; [reflexivity|].
      now rewrite (map_replace_none _ _ Hfound).
    + now rewrite (replaceNamed_unnamed_entry prop value _ Hall).
  - rewrite bool_decide_eq_false_2 by (intros [n Hn]; discriminate). reflexivity.
Qed.

(** Where the values concerned match the pattern [propName] (the new
    value and every entry of an existing list that is not just "none"),
    [AddMore] merges or appends: for a name absent from the map it creates
    a record with the value as its only entry; a list that is just "none"
    is overwritten by the value; in any other list the entries with the
    same leading function name are replaced in place, and when there is
    none the value is appended. *)
Theorem AddMore_merge_or_append (c : gmap string Govfx.ComputedStyle)
    (name value : string) (priority : bool) :
  allNamed c name value = true ->
  Govfx.AddMore c name value priority = Ret (mergedMap c name value priority).
Proof. intros Hnamed. rewrite AddMore_outcome, Hnamed. reflexivity. Qed.

Lemma AddMore_merge_or_append_witness :
  let c := Govfx.Add (Govfx.Add ∅ "transform" "scale(2)" false) "filter" "none" false in
  allNamed c "transform" "rotate(3deg)" = true
  ∧ Govfx.AddMore c "transform" "rotate(3deg)" true
    = Ret (mergedMap c "transform" "rotate(3deg)" true).
Proof.
  cbv zeta. split; [vm_compute; reflexivity|].
  apply (AddMore_merge_or_append _ "transform" "rotate(3deg)" true).
  vm_compute. reflexivity.
Defined.

(** C6, at the empty value.  On a record whose list holds "scale(2)" the
    empty value shares a leading function name with no entry, yet it is
    not appended: the call faults on the unchecked index into the match.
    For a name that is absent, or a list that is just "none", the same
    value is stored without fault.  The fault is also reached with a
    well-formed value from a record the library made itself: for a
    property whose computed value is empty [GetComputedStyleMap] stores a
    list holding the empty string, and [AddMore] of "scale(2)" to it
    faults. *)
Theorem AddMore_empty_value_faults :
  let c := Govfx.Add ∅ "transform" "scale(2)" false in
  let built :=
    fold_left (Govfx.rangeStep string id trimSpaceAscii emptyValueStyle)
              (Govfx.ToMap string emptyValueStyle) ∅ in
  existsb (sameLeadingName "") ["scale(2)"] = false
  ∧ Govfx.AddMore c "transform" "" true = Fault IndexOutOfRange
  ∧ Govfx.AddMore c "transform" "" true <> Ret (mergedMap c "transform" "" true)
  ∧ Govfx.Values <$> (mergedMap c "transform" "" true !! "transform")
    = Some ["scale(2)"; ""]
  ∧ returns (Govfx.AddMore ∅ "transform" "" true)
  ∧ returns (Govfx.AddMore (Govfx.Add ∅ "transform" "none" false) "transform" "" true)
  ∧ Govfx.GetComputedStyleMap string id trimSpaceAscii nat
      (fun _ _ => Some emptyValueStyle) 0 "" = Ret (Some built, None)
  ∧ Govfx.Values <$> (built !! "transform") = Some [""]
  ∧ Govfx.AddMore built "transform" "scale(2)" false = Fault IndexOutOfRange.
Proof.
  cbv zeta.
  assert (Hf : Govfx.AddMore (Govfx.Add ∅ "transform" "scale(2)" false) "transform" "" true
               = Fault IndexOutOfRange).
  { rewrite AddMore_outcome. vm_compute. reflexivity. }
  split; [reflexivity | split; [exact Hf | split; [rewrite Hf; discriminate|]]].
  split; [vm_compute; reflexivity|].
  split; [rewrite AddMore_outcome; eexists; vm_compute; reflexivity|].
  split; [rewrite AddMore_outcome; eexists; vm_compute; reflexivity|].
  split; [reflexivity | split; [vm_compute; reflexivity|]].
  rewrite AddMore_outcome. vm_compute. reflexivity.
Qed.

(** *** More on the map of computed styles *)

Lemma find_app_first {A : Type} (f : A -> bool) (l1 l2 : list A) :
  find f (l1 ++ l2)%list
  = match find f l1 with
    | Some x => Some x
    | None => find f l2
    end.
Proof.
  induction l1 as [|x l1 IH]; cbn; [reflexivity|].
  destruct (f x); [reflexivity | exact IH].
Qed.

Lemma lastVisited_In (name : string) (entries : list (string * string))
    (key val : string) :
  lastVisited name entries = Some (key, val) ->
  In (key, val) entries ∧ Govfx.unvendoredName key = name.
Proof.
  unfold lastVisited. intros Hfind. apply find_some in Hfind as [Hin Hname].
  apply in_rev in Hin. apply bool_decide_eq_true in Hname. auto.
Qed.

Lemma lastVisited_None (name : string) (entries : list (string * string)) :
  lastVisited name entries = None <-> ~ In name (cleanNames entries).
Proof.
  unfold lastVisited, cleanNames. split.
  - intros Hnone Hin. apply in_map_iff in Hin as (e & He & Hin).
    pose proof (find_none _ _ Hnone e) as Hf.
    rewrite <- in_rev in Hf. specialize (Hf Hin).
    apply bool_decide_eq_false in Hf. contradiction.
  - intros Hnot. destruct (find _ (rev entries)) as [[key val]|] eqn:Hfind; [|reflexivity].
    apply find_some in Hfind as [Hin Hname].
    apply in_rev in Hin. apply bool_decide_eq_true in Hname.
    exfalso. apply Hnot. apply in_map_iff. exists (key, val). auto.
Qed.

Lemma lastVisited_unique (name : string) (entries : list (string * string))
    (key val : string) :
  NoDup (cleanNames entries) ->
  In (key, val) entries ->
  Govfx.unvendoredName key = name ->
  lastVisited name entries = Some (key, val).
Proof.
  intros Hnodup Hin Hname.
  destruct (lastVisited name entries) as [[key' val']|] eqn:Hlast.
  - apply lastVisited_In in Hlast as [Hin' Hname'].
    revert Hnodup Hin Hin'. unfold cleanNames.
    induction entries as [|e entries IH]; cbn [map In]; [tauto|].
    rewrite NoDup_cons. intros [Hfresh Hnodup] [->|Hin] [He|Hin'].
    + now rewrite He.
    + exfalso. apply Hfresh. apply list_elem_of_In, in_map_iff.
      exists (key', val'). cbn [fst]. split; [congruence | exact Hin'].
    + subst e. exfalso. apply Hfresh. apply list_elem_of_In, in_map_iff.
      exists (key, val). cbn [fst]. split; [congruence | exact Hin].
    + apply IH; assumption.
  - apply lastVisited_None in Hlast. exfalso. apply Hlast.
    apply in_map_iff. exists (key, val). auto.
Qed.

Section MoreStyleMap.
Context {JsObject Element : Type}.
Variable JsString : JsObject -> string.
Variable TrimSpace : string -> string.
Variable Window : Element -> string -> option (Govfx.CSSStyleDeclaration JsObject).

Lemma rangeStep_insert (css : Govfx.CSSStyleDeclaration JsObject)
    (styleMap : gmap string Govfx.ComputedStyle) (key val : string) :
  Govfx.rangeStep JsObject JsString TrimSpace css styleMap (key, val)
  = <[ Govfx.unvendoredName key := styleRecord JsString TrimSpace css key val ]> styleMap.
Proof.
  unfold Govfx.rangeStep, styleRecord.
  destruct (Govfx.GetComputedStylePriority JsObject JsString TrimSpace css key)
    as [priority err]. cbn [fst].
  destruct (String.eqb (TrimSpace val) "none"); reflexivity.
Qed.

Lemma fold_rangeStep_lookup (css : Govfx.CSSStyleDeclaration JsObject)
    (entries : list (string * string)) :
  forall (styleMap : gmap string Govfx.ComputedStyle) (name : string),
    fold_left (Govfx.rangeStep JsObject JsString TrimSpace css) entries styleMap !! name
    = match lastVisited name entries with
      | Some (key, val) => Some (styleRecord JsString TrimSpace css key val)
      | None => styleMap !! name
      end.
Proof.
  induction entries as [|[key val] entries IH]; intros styleMap name; [reflexivity|].
  cbn [fold_left]. rewrite IH. unfold lastVisited. cbn [rev].
  rewrite find_app_first.
  destruct (find _ (rev entries)) as [[key' val']|]; [reflexivity|].
  cbn [find fst]. rewrite rangeStep_insert.
  destruct (decide (Govfx.unvendoredName key = name)) as [Heq|Hne].
  - rewrite bool_decide_eq_true_2 by exact Heq. rewrite <- Heq.
    apply lookup_insert_eq.
  - rewrite bool_decide_eq_false_2 by exact Hne. apply lookup_insert_ne, Hne.
Qed.

Lemma GetComputedStyleMap_found (css : Govfx.CSSStyleDeclaration JsObject)
    (elem : Element) (ps : string) :
  Window elem ps = Some css ->
  Govfx.GetComputedStyleMap JsObject JsString TrimSpace Element Window elem ps
  = Ret (Some (fold_left (Govfx.rangeStep JsObject JsString TrimSpace css)
                         (Govfx.ToMap JsObject css) ∅), None).
Proof.
  intros Hcss. unfold Govfx.GetComputedStyleMap, Govfx.GetComputedStyle.
  rewrite Hcss. reflexivity.
Qed.

(** [GetComputedStyleMap] never faults: it answers [ErrNotFound] with no
    map exactly when the browser has no computed style for the element,
    and a map with no error otherwise. *)
Theorem GetComputedStyleMap_never_faults (elem : Element) (ps : string) :
  exists r,
    Govfx.GetComputedStyleMap JsObject JsString TrimSpace Element Window elem ps = Ret r
    ∧ (snd r = Some Govfx.ErrNotFound <-> Window elem ps = None)
    ∧ (fst r = None <-> Window elem ps = None)
    ∧ (snd r = None <-> is_Some (Window elem ps)).
Proof.
  unfold Govfx.GetComputedStyleMap, Govfx.GetComputedStyle.
  destruct (Window elem ps) as [css|]; cbn; eexists; (split; [reflexivity|]); cbn.
  - repeat split; try discriminate; eauto.
  - repeat split; try discriminate; auto. intros [x Hx]. discriminate.
Qed.

(** The record found under a name is the one made from the entry visited
    last among those whose key cleans up to that name, and there is no
    record under a name to which no key cleans up. *)
Theorem GetComputedStyleMap_last_visited (css : Govfx.CSSStyleDeclaration JsObject)
    (elem : Element) (ps : string) :
  Window elem ps = Some css ->
  exists styleMap,
    Govfx.GetComputedStyleMap JsObject JsString TrimSpace Element Window elem ps
      = Ret (Some styleMap, None)
    ∧ forall name,
        styleMap !! name
        = match lastVisited name (Govfx.ToMap JsObject css) with
          | Some (key, val) => Some (styleRecord JsString TrimSpace css key val)
          | None => None
          end.
Proof.
  intros Hcss. eexists. split; [apply GetComputedStyleMap_found, Hcss|].
  intros name. rewrite fold_rangeStep_lookup, lookup_empty. reflexivity.
Qed.

(** The names of the map are exactly the cleaned-up keys of the computed
    style. *)
Theorem GetComputedStyleMap_names (css : Govfx.CSSStyleDeclaration JsObject)
    (elem : Element) (ps : string) (styleMap : gmap string Govfx.ComputedStyle) :
  Window elem ps = Some css ->
  Govfx.GetComputedStyleMap JsObject JsString TrimSpace Element Window elem ps
    = Ret (Some styleMap, None) ->
  forall name,
    is_Some (styleMap !! name) <-> In name (cleanNames (Govfx.ToMap JsObject css)).
Proof.
  intros Hcss Hmap name.
  rewrite (GetComputedStyleMap_found css elem ps Hcss) in Hmap. injection Hmap as <-.
  rewrite fold_rangeStep_lookup, lookup_empty.
  destruct (lastVisited name _) as [[key val]|] eqn:Hlast.
  - apply lastVisited_In in Hlast as [Hin Hname]. split; [|eauto].
    intros _. apply in_map_iff. exists (key, val). auto.
  - apply lastVisited_None in Hlast. split; [intros [x Hx]; discriminate | tauto].
Qed.

(** Every record of the map carries the name it is stored under, which is
    the cleaned-up form of its vendor name; its vendor name and value are
    an entry of the computed style; and its value list is empty when the
    value trims to "none" and holds just the value otherwise. *)
Theorem GetComputedStyleMap_records (css : Govfx.CSSStyleDeclaration JsObject)
    (elem : Element) (ps : string) (styleMap : gmap string Govfx.ComputedStyle)
    (name : string) (cs : Govfx.ComputedStyle) :
  Window elem ps = Some css ->
  Govfx.GetComputedStyleMap JsObject JsString TrimSpace Element Window elem ps
    = Ret (Some styleMap, None) ->
  styleMap !! name = Some cs ->
  Govfx.Name cs = name
  ∧ Govfx.unvendoredName (Govfx.VendorName cs) = name
  ∧ In (Govfx.VendorName cs, Govfx.Value cs) (Govfx.ToMap JsObject css)
  ∧ Govfx.Values cs
    = (if String.eqb (TrimSpace (Govfx.Value cs)) "none" then [] else [Govfx.Value cs]).
Proof.
  intros Hcss Hmap Hcs.
  rewrite (GetComputedStyleMap_found css elem ps Hcss) in Hmap. injection Hmap as <-.
  rewrite fold_rangeStep_lookup, lookup_empty in Hcs.
  destruct (lastVisited name _) as [[key val]|] eqn:Hlast; [|discriminate].
  injection Hcs as <-. apply lastVisited_In in Hlast as [Hin Hname].
  cbn. repeat split; auto.
Qed.
End MoreStyleMap.

Section PriorityFlag.
Context {JsObject Element : Type}.
Variable JsString : JsObject -> string.
Variable TrimSpace : string -> string.
Variable Window : Element -> string -> option (Govfx.CSSStyleDeclaration JsObject).

(** C7.  The priority flag of the records [GetComputedStyleMap] produces
    reflects the marker: every key of the computed style has a record
    under its cleaned-up name; the record under a name is the one of the
    key visited last for it and its flag is true exactly when
    [getPropertyPriority], asked for that key, yields a string that is
    not blank once trimmed; the same holds of every record of the map for
    the key it was made from; and [GetComputedStylePriority] returns only
    0 or 1, the 1 exactly for a marked property. *)
Theorem Priority_reflects_important (elem : Element) (ps : string)
    (styleMap : gmap string Govfx.ComputedStyle) :
  Govfx.GetComputedStyleMap JsObject JsString TrimSpace Element Window elem ps
    = Ret (Some styleMap, None) ->
  (exists css,
      Window elem ps = Some css
      ∧ (forall name cs, styleMap !! name = Some cs ->
           In (Govfx.VendorName cs) (map fst (Govfx.ToMap JsObject css))
           ∧ (Govfx.Priority cs = true
              <-> marksImportant JsString TrimSpace css (Govfx.VendorName cs)))
      ∧ (forall name key val,
           lastVisited name (Govfx.ToMap JsObject css) = Some (key, val) ->
           exists cs,
             styleMap !! name = Some cs
             ∧ Govfx.VendorName cs = key
             ∧ Govfx.Value cs = val
             ∧ (Govfx.Priority cs = true
                <-> marksImportant JsString TrimSpace css key))
      ∧ (forall key val, In (key, val) (Govfx.ToMap JsObject css) ->
           is_Some (styleMap !! Govfx.unvendoredName key)))
  ∧ (forall css prop,
        let priority :=
          fst (Govfx.GetComputedStylePriority JsObject JsString TrimSpace css prop) in
        (priority = 0 ∨ priority = 1)%Z
        ∧ (priority = 1%Z <-> marksImportant JsString TrimSpace css prop)).
Proof.
  intros Hmap. split.
  - unfold Govfx.GetComputedStyleMap, Govfx.GetComputedStyle in Hmap.
    destruct (Window elem ps) as [css|]; cbn in Hmap; [|discriminate].
    injection Hmap as <-. exists css. split; [reflexivity|]. split; [|split].
    + intros name cs Hcs.
      apply (rangeStep_keeps_records JsString TrimSpace css) in Hcs
        as (_ & _ & (val & Hin & _) & Hprio); auto.
      * split; [|exact Hprio]. apply in_map_iff.
        exists (Govfx.VendorName cs, val). auto.
      * intros name' cs'. rewrite lookup_empty. discriminate.
    + intros name key val Hlast. eexists.
      rewrite fold_rangeStep_lookup, Hlast.
      split; [reflexivity|]. cbn. split; [reflexivity | split; [reflexivity|]].
      apply GetComputedStylePriority_flag.
    + intros key val Hin. rewrite fold_rangeStep_lookup, lookup_empty.
      destruct (lastVisited _ _) as [[key' val']|] eqn:Hlast; [eauto|].
      apply lastVisited_None in Hlast. exfalso. apply Hlast.
      apply in_map_iff. exists (key, val). auto.
  - intros css prop.
    pose proof (GetComputedStylePriority_flag JsString TrimSpace css prop) as [H01 Hflag].
    cbv zeta in *. split; [exact H01|]. rewrite <- Hflag.
    destruct H01 as [->| ->]; split; intros H; try reflexivity; discriminate.
Qed.
End PriorityFlag.

Lemma Priority_reflects_important_witness :
  let styleMap :=
    fold_left (Govfx.rangeStep string id trimSpaceAscii sampleStyle)
              (Govfx.ToMap string sampleStyle) ∅ in
  Govfx.GetComputedStyleMap string id trimSpaceAscii nat sampleWindow 0 ""
    = Ret (Some styleMap, None)
  ∧ lastVisited "color" (Govfx.ToMap string sampleStyle) = Some ("color", "red")
  ∧ marksImportant id trimSpaceAscii sampleStyle "color"
  ∧ exists cs,
      styleMap !! "color" = Some cs
      ∧ Govfx.VendorName cs = "color"
      ∧ Govfx.Priority cs = true.
Proof.
  cbv zeta. split; [reflexivity | split; [reflexivity|]].
  assert (Hmark : marksImportant id trimSpaceAscii sampleStyle "color").
  { exists "important". split; [reflexivity | vm_compute; discriminate]. }
  split; [exact Hmark|].
  destruct (Priority_reflects_important id trimSpaceAscii sampleWindow 0 ""
              (fold_left (Govfx.rangeStep string id trimSpaceAscii sampleStyle)
                         (Govfx.ToMap string sampleStyle) ∅) eq_refl)
    as [(css & Hcss & _ & Hlast & _) _].
  cbn in Hcss. injection Hcss as <-.
  destruct (Hlast "color" "color" "red" eq_refl) as (cs & Hcs & Hkey & _ & Hprio).
  exists cs. split; [exact Hcs | split; [exact Hkey | apply Hprio, Hmark]].
Defined.

Section StyleMapOrder.
Context {JsObject Element : Type}.
Variable JsString : JsObject -> string.
Variable TrimSpace : string -> string.
Variable Window : Element -> string -> option (Govfx.CSSStyleDeclaration JsObject).

Lemma fold_rangeStep_size (css : Govfx.CSSStyleDeclaration JsObject)
    (entries : list (string * string)) :
  forall styleMap : gmap string Govfx.ComputedStyle,
    NoDup (cleanNames entries) ->
    (forall name, In name (cleanNames entries) -> styleMap !! name = None) ->
    size (fold_left (Govfx.rangeStep JsObject JsString TrimSpace css) entries styleMap)
    = (size styleMap + List.length entries)%nat.
Proof.
  induction entries as [|[key val] entries IH]; intros styleMap Hnodup Hfree.
  - cbn. lia.
  - cbn [fold_left List.length]. unfold cleanNames in *. cbn [map fst] in *.
    apply NoDup_cons in Hnodup as [Hfresh Hnodup].
    rewrite IH, rangeStep_insert; [| exact Hnodup |].
    + rewrite map_size_insert_None by (apply Hfree; now left). lia.
    + intros name Hin. rewrite rangeStep_insert, lookup_insert_ne.
      * apply Hfree. now right.
      * intros <-. apply Hfresh, list_elem_of_In, Hin.
Qed.

(** When no two keys of the computed style clean up to the same name, no
    entry is lost: each key's record is found under its cleaned-up name,
    with the key as vendor name and the key's value, and the map has as
    many records as the style has entries. *)
Theorem GetComputedStyleMap_keeps_distinct_names
    (css : Govfx.CSSStyleDeclaration JsObject) (elem : Element) (ps : string)
    (styleMap : gmap string Govfx.ComputedStyle) :
  Window elem ps = Some css ->
  Govfx.GetComputedStyleMap JsObject JsString TrimSpace Element Window elem ps
    = Ret (Some styleMap, None) ->
  NoDup (cleanNames (Govfx.ToMap JsObject css)) ->
  (forall key val, In (key, val) (Govfx.ToMap JsObject css) ->
     styleMap !! Govfx.unvendoredName key
     = Some (styleRecord JsString TrimSpace css key val))
  ∧ size styleMap = List.length (Govfx.ToMap JsObject css).
Proof.
  intros Hcss Hmap Hnodup.
  rewrite (GetComputedStyleMap_found JsString TrimSpace Window css elem ps Hcss) in Hmap.
  injection Hmap as <-. split.
  - intros key val Hin. rewrite fold_rangeStep_lookup.
    now rewrite (lastVisited_unique _ _ key val Hnodup Hin eq_refl).
  - rewrite fold_rangeStep_size; [rewrite map_size_empty; lia | exact Hnodup |].
    intros name _. apply lookup_empty.
Qed.

(** When no two keys clean up to the same name, the order in which Go
    visits the entries of the computed style does not matter: two styles
    with the same entries and the same priorities give the same map. *)
Theorem GetComputedStyleMap_order_irrelevant
    (Window' : Element -> string -> option (Govfx.CSSStyleDeclaration JsObject))
    (css css' : Govfx.CSSStyleDeclaration JsObject) (elem : Element) (ps : string) :
  Window elem ps = Some css ->
  Window' elem ps = Some css' ->
  (forall key, Govfx.getPropertyPriority JsObject css key
               = Govfx.getPropertyPriority JsObject css' key) ->
  Permutation (Govfx.ToMap JsObject css) (Govfx.ToMap JsObject css') ->
  NoDup (cleanNames (Govfx.ToMap JsObject css)) ->
  Govfx.GetComputedStyleMap JsObject JsString TrimSpace Element Window elem ps
  = Govfx.GetComputedStyleMap JsObject JsString TrimSpace Element Window' elem ps.
Proof.
  intros Hcss Hcss' Hprio Hperm Hnodup.
  rewrite (GetComputedStyleMap_found JsString TrimSpace Window css elem ps Hcss).
  rewrite (GetComputedStyleMap_found JsString TrimSpace Window' css' elem ps Hcss').
  do 3 f_equal. apply map_eq. intros name.
  rewrite !fold_rangeStep_lookup, !lookup_empty.
  assert (Hnodup' : NoDup (cleanNames (Govfx.ToMap JsObject css'))).
  { unfold cleanNames in *. now rewrite <- Hperm. }
  assert (Hrec : forall key val, styleRecord JsString TrimSpace css key val
                                 = styleRecord JsString TrimSpace css' key val).
  { intros key val. unfold styleRecord, Govfx.GetComputedStylePriority.
    now rewrite Hprio. }
  destruct (lastVisited name (Govfx.ToMap JsObject css)) as [[key val]|] eqn:Hlast.
  - apply lastVisited_In in Hlast as [Hin Hname].
    rewrite (lastVisited_unique name _ key val Hnodup'); [now rewrite Hrec | | exact Hname].
    apply list_elem_of_In. rewrite <- Hperm. apply list_elem_of_In, Hin.
  - apply lastVisited_None in Hlast.
    assert (Hnone : lastVisited name (Govfx.ToMap JsObject css') = None).
    { apply lastVisited_None. intros Hin. apply Hlast.
      unfold cleanNames in *. apply list_elem_of_In. rewrite Hperm.
      apply list_elem_of_In, Hin. }
    now rewrite Hnone.
Qed.

(** [GetComputedStyleValue] never faults: it hands on the value of the
    property of the element's computed style when both the style and the
    value are there, and answers [ErrNotFound] with no value when either
    is missing. *)
Theorem GetComputedStyleValue_outcome (elem : Element) (psudo prop : string) :
  exists r,
    Govfx.GetComputedStyleValue JsObject Element Window elem psudo prop = Ret r
    ∧ fst r = (css ← Window elem psudo; Govfx.getPropertyValue JsObject css prop)
    ∧ (snd r = Some Govfx.ErrNotFound <-> fst r = None)
    ∧ (snd r = None <-> is_Some (fst r)).
Proof.
  unfold Govfx.GetComputedStyleValue, Govfx.GetComputedStyle,
    Govfx.GetComputedStyleValueWith.
  destruct (Window elem psudo) as [css|]; cbn.
  - destruct (Govfx.getPropertyValue JsObject css prop) as [v|]; cbn;
      eexists; (split; [reflexivity|]); cbn;
      repeat split; try discriminate; eauto; intros [x Hx]; discriminate.
  - eexists; (split; [reflexivity|]); cbn.
    repeat split; try discriminate; eauto; intros [x Hx]; discriminate.
Qed.
End StyleMapOrder.

(** *** More on [Add] *)

(** After [Add], on any map, the property is there: [Has] answers true and
    [Get] finds, with no error, a record that carries the value, the value
    alone in its list, and the priority.  A record that was there keeps its
    name and vendor name; a new one takes the property name for both. *)
Theorem Add_then_Get (c : gmap string Govfx.ComputedStyle)
    (name value : string) (priority : bool) :
  Govfx.Has (Govfx.Add c name value priority) name = true
  ∧ exists cs,
      Govfx.Get (Govfx.Add c name value priority) name = (Some cs, None)
      ∧ Govfx.Value cs = value
      ∧ Govfx.Values cs = [value]
      ∧ Govfx.Priority cs = priority
      ∧ Govfx.Name cs = from_option Govfx.Name name (c !! name)
      ∧ Govfx.VendorName cs = from_option Govfx.VendorName name (c !! name).
Proof.
  unfold Govfx.Add, Govfx.Has, Govfx.Get.
  destruct (c !! name) as [m|] eqn:Hm; cbn [negb]; rewrite ?Hm, lookup_insert_eq;
    (split; [reflexivity|]); eexists; repeat split; reflexivity.
Qed.

(** [Add] leaves every other property as it was. *)
Theorem Add_leaves_others (c : gmap string Govfx.ComputedStyle)
    (name value other : string) (priority : bool) :
  other <> name ->
  Govfx.Get (Govfx.Add c name value priority) other = Govfx.Get c other
  ∧ Govfx.Has (Govfx.Add c name value priority) other = Govfx.Has c other.
Proof.
  intros Hne.
  assert (Hlook : Govfx.Add c name value priority !! other = c !! other).
  { unfold Govfx.Add, Govfx.Has.
    destruct (c !! name) as [m|] eqn:Hm; cbn [negb]; rewrite ?Hm;
      apply lookup_insert_ne; congruence. }
  unfold Govfx.Get, Govfx.Has. rewrite Hlook. split; reflexivity.
Qed.

Lemma Add_leaves_others_witness :
  "color" <> "width"
  ∧ Govfx.Get (Govfx.Add (Govfx.Add ∅ "color" "red" false) "width" "3px" true) "color"
    = Govfx.Get (Govfx.Add ∅ "color" "red" false) "color".
Proof.
  split; [discriminate|].
  apply (Add_leaves_others (Govfx.Add ∅ "color" "red" false) "width" "3px" "color" true).
  discriminate.
Defined.

(** Of two [Add]s of the same property the second decides: the map is the
    one the second alone would have given. *)
Theorem Add_last_wins (c : gmap string Govfx.ComputedStyle)
    (name value1 value2 : string) (priority1 priority2 : bool) :
  Govfx.Add (Govfx.Add c name value1 priority1) name value2 priority2
  = Govfx.Add c name value2 priority2.
Proof.
  unfold Govfx.Add, Govfx.Has.
  destruct (c !! name) as [m|] eqn:Hm; cbn [negb]; rewrite ?Hm;
    rewrite !lookup_insert_eq; cbn; apply insert_insert_eq.
Qed.

(** [Add]s of different properties can be done in either order. *)
Theorem Add_commutes (c : gmap string Govfx.ComputedStyle)
    (name1 value1 name2 value2 : string) (priority1 priority2 : bool) :
  name1 <> name2 ->
  Govfx.Add (Govfx.Add c name1 value1 priority1) name2 value2 priority2
  = Govfx.Add (Govfx.Add c name2 value2 priority2) name1 value1 priority1.
Proof.
  intros Hne.
  assert (Hshape : forall (d : gmap string Govfx.ComputedStyle) n v p,
             Govfx.Add d n v p
             = <[ n := {| Govfx.Name := from_option Govfx.Name n (d !! n);
                          Govfx.VendorName := from_option Govfx.VendorName n (d !! n);
                          Govfx.Value := v; Govfx.Values := [v];
                          Govfx.Priority := p |} ]> d).
  { intros d n v p. unfold Govfx.Add, Govfx.Has.
    destruct (d !! n) as [m|] eqn:Hm; cbn [negb]; rewrite ?Hm; reflexivity. }
  rewrite !Hshape.
  rewrite (lookup_insert_ne _ name1 name2) by exact Hne.
  rewrite (lookup_insert_ne _ name2 name1) by congruence.
  apply insert_insert_ne. congruence.
Qed.

Lemma Add_commutes_witness :
  "color" <> "width"
  ∧ Govfx.Add (Govfx.Add ∅ "color" "red" false) "width" "3px" true
    = Govfx.Add (Govfx.Add ∅ "width" "3px" true) "color" "red" false.
Proof.
  split; [discriminate|].
  apply (Add_commutes ∅ "color" "red" "width" "3px" false true). discriminate.
Defined.

(** *** More on [AddMore] *)

Lemma AddMore_absent (c : gmap string Govfx.ComputedStyle)
    (name value : string) (priority : bool) :
  c !! name = None ->
  Govfx.AddMore c name value priority
  = Ret (<[ name := {| Govfx.Name := name; Govfx.VendorName := name;
                       Govfx.Value := value; Govfx.Values := [value];
                       Govfx.Priority := priority |} ]> c).
Proof. intros Hc. unfold Govfx.AddMore, Govfx.Has. rewrite Hc. reflexivity. Qed.

Lemma AddMore_present (c c' : gmap string Govfx.ComputedStyle)
    (name value : string) (priority : bool) (m : Govfx.ComputedStyle) :
  c !! name = Some m ->
  Govfx.AddMore c name value priority = Ret c' ->
  c' = <[ name := {| Govfx.Name := Govfx.Name m; Govfx.VendorName := Govfx.VendorName m;
                     Govfx.Value := Govfx.Value m;
                     Govfx.Values := mergeOrAppend (Govfx.Values m) value;
                     Govfx.Priority := Govfx.Priority m |} ]> c
  ∧ (Govfx.Values m = ["none"]
     ∨ (is_Some (leadingName value)
        ∧ Forall (fun entry => is_Some (leadingName entry)) (Govfx.Values m))).
Proof.
  intros Hc. rewrite AddMore_outcome. unfold allNamed, mergedMap. rewrite Hc.
  destruct (bool_decide (Govfx.Values m = ["none"])) eqn:Hnone; cbn [orb].
  - intros [= <-]. split; [reflexivity|]. left. now apply bool_decide_eq_true in Hnone.
  - destruct (bool_decide (is_Some (leadingName value))) eqn:Hv; cbn [andb]; [|discriminate].
    destruct (forallb _ (Govfx.Values m)) eqn:Hall; [|discriminate].
    intros [= <-]. split; [reflexivity|]. right.
    apply bool_decide_eq_true in Hv. split; [exact Hv|].
    apply Forall_forall. intros entry Hin.
    rewrite forallb_forall in Hall. apply list_elem_of_In, Hall in Hin.
    now apply bool_decide_eq_true in Hin.
Qed.

(** [AddMore] faults exactly when it has to take a leading name from a
    value that has none: the property is there, its list is not just
    "none", and the new value or an entry of the list has no match of
    [propName].  The fault is an index out of range. *)
Theorem AddMore_faults_iff (c : gmap string Govfx.ComputedStyle)
    (name value : string) (priority : bool) :
  (faults (Govfx.AddMore c name value priority) <-> allNamed c name value = false)
  ∧ (returns (Govfx.AddMore c name value priority) <-> allNamed c name value = true)
  ∧ (faults (Govfx.AddMore c name value priority)
     <-> Govfx.AddMore c name value priority = Fault IndexOutOfRange).
Proof.
  rewrite AddMore_outcome. unfold faults, returns.
  destruct (allNamed c name value); repeat split;
    try discriminate; eauto; intros [x Hx]; discriminate.
Qed.

(** On a property that is there, [AddMore] changes its value list and
    nothing else: name, vendor name, value and priority of the record stay,
    so the priority passed is not stored; and no other property is
    touched, whether the property was there or not. *)
Theorem AddMore_changes_only_values (c c' : gmap string Govfx.ComputedStyle)
    (name value : string) (priority : bool) :
  Govfx.AddMore c name value priority = Ret c' ->
  (forall other, other <> name -> c' !! other = c !! other)
  ∧ Govfx.Has c' name = true
  ∧ (forall m, c !! name = Some m ->
       exists m', c' !! name = Some m'
                  ∧ Govfx.Name m' = Govfx.Name m
                  ∧ Govfx.VendorName m' = Govfx.VendorName m
                  ∧ Govfx.Value m' = Govfx.Value m
                  ∧ Govfx.Priority m' = Govfx.Priority m).
Proof.
  intros Hret. destruct (c !! name) as [m|] eqn:Hc.
  - pose proof (AddMore_present _ _ _ _ _ m Hc Hret) as [Hc' _]. subst c'.
    split; [|split].
    + intros other Hne. apply lookup_insert_ne. congruence.
    + unfold Govfx.Has. now rewrite lookup_insert_eq.
    + intros m0 Hm0. injection Hm0 as Hm0. subst m0.
      eexists. rewrite lookup_insert_eq.
      split; [reflexivity|]. repeat split; reflexivity.
  - rewrite (AddMore_absent _ _ _ _ Hc) in Hret. injection Hret as <-.
    split; [|split].
    + intros other Hne. apply lookup_insert_ne. congruence.
    + unfold Govfx.Has. now rewrite lookup_insert_eq.
    + intros m0 Hm0. discriminate.
Qed.

Lemma AddMore_changes_only_values_witness :
  let c := Govfx.Add ∅ "transform" "scale(2)" true in
  let c' := mergedMap c "transform" "rotate(3deg)" false in
  Govfx.AddMore c "transform" "rotate(3deg)" false = Ret c'
  ∧ Govfx.Has c' "transform" = true.
Proof.
  cbv zeta. split; [vm_compute; reflexivity|].
  apply (AddMore_changes_only_values
           (Govfx.Add ∅ "transform" "scale(2)" true)
           (mergedMap (Govfx.Add ∅ "transform" "scale(2)" true)
                      "transform" "rotate(3deg)" false)
           "transform" "rotate(3deg)" false).
  vm_compute. reflexivity.
Defined.

Lemma In_map_replace (value : string) (vals : list string) :
  existsb (sameLeadingName value) vals = true ->
  In value (map (fun entry => if sameLeadingName value entry then value else entry) vals).
Proof.
  induction vals as [|val rest IH]; cbn; [discriminate|].
  destruct (sameLeadingName value val); cbn; [now left|]. intros H. right. now apply IH.
Qed.

Lemma mergeOrAppend_holds_value (vals : list string) (value : string) :
  In value (mergeOrAppend vals value)
  ∧ (List.length vals <= List.length (mergeOrAppend vals value) <= S (List.length vals))%nat.
Proof.
  unfold mergeOrAppend. destruct (bool_decide (vals = ["none"])) eqn:Hnone.
  - apply bool_decide_eq_true in Hnone as ->. cbn. split; [now left | lia].
  - destruct (existsb _ vals) eqn:Hfound.
    + split; [now apply In_map_replace|]. rewrite length_map. lia.
    + split; [apply in_or_app; right; now left|]. rewrite length_app. cbn. lia.
Qed.




Lemma sameLeadingName_eq (value entry : string) :
  sameLeadingName value entry = true <->
  is_Some (leadingName value) ∧ leadingName entry = leadingName value.
Proof.
  unfold sameLeadingName.
  destruct (leadingName value) as [a|], (leadingName entry) as [b|]; split;
    try discriminate; try (intros [[x Hx] Hy]; discriminate).
  - intros Hab. apply String.eqb_eq in Hab as ->. eauto.
  - intros [_ [= ->]]. apply String.eqb_refl.
Qed.

Lemma mergeOrAppend_settled (vals : list string) (value : string) :
  is_Some (leadingName value) ->
  In value vals ->
  (forall entry, In entry vals -> sameLeadingName value entry = true -> entry = value) ->
  mergeOrAppend vals value = vals.
Proof.
  intros Hnamed Hin Hsame. unfold mergeOrAppend.
  destruct (bool_decide (vals = ["none"])) eqn:Hnone.
  - apply bool_decide_eq_true in Hnone. subst vals.
    destruct Hin as [<-|[]]. reflexivity.
  - assert (Hfound : existsb (sameLeadingName value) vals = true).
    { apply existsb_exists. exists value. split; [exact Hin|].
      apply sameLeadingName_eq. auto. }
    rewrite Hfound. clear Hin Hfound Hnone.
    induction vals as [|val rest IH]; cbn; [reflexivity|].
    rewrite IH by (intros e He; apply Hsame; now right).
    destruct (sameLeadingName value val) eqn:E; [|reflexivity].
    now rewrite (Hsame val (or_introl eq_refl) E).
Qed.

Lemma mergeOrAppend_result (vals : list string) (value : string) :
  let merged := mergeOrAppend vals value in
  In value merged
  ∧ (forall entry, In entry merged -> sameLeadingName value entry = true -> entry = value)
  ∧ (is_Some (leadingName value) ->
     vals = ["none"] ∨ Forall (fun entry => is_Some (leadingName entry)) vals ->
     Forall (fun entry => is_Some (leadingName entry)) merged).
Proof.
  cbv zeta. split; [apply mergeOrAppend_holds_value|].
  unfold mergeOrAppend. destruct (bool_decide (vals = ["none"])) eqn:Hnone.
  - split.
    + intros entry [<-|[]] _. reflexivity.
    + intros Hv _. now constructor.
  - apply bool_decide_eq_false in Hnone.
    destruct (existsb _ vals) eqn:Hfound; split.
    + intros entry Hin Hsame. apply in_map_iff in Hin as (e0 & He0 & Hin0).
      destruct (sameLeadingName value e0) eqn:E; congruence.
    + intros Hv [Hn|Hall]; [contradiction|].
      apply Forall_forall. intros entry Hin.
      apply list_elem_of_In, in_map_iff in Hin as (e0 & He0 & Hin0).
      destruct (sameLeadingName value e0); subst entry; [exact Hv|].
      rewrite Forall_forall in Hall. apply Hall, list_elem_of_In, Hin0.
    + intros entry Hin Hsame. apply in_app_or in Hin as [Hin|[<-|[]]]; [|reflexivity].
      exfalso. assert (Ht : existsb (sameLeadingName value) vals = true)
        by (apply existsb_exists; eauto). congruence.
    + intros Hv [Hn|Hall]; [contradiction|].
      apply Forall_app. split; [exact Hall | now constructor].
Qed.

(** [AddMore] of a value that has a leading name is idempotent: a second
    call with the same value, whatever the priority, returns the map the
    first call gave. *)
Theorem AddMore_idempotent (c c' : gmap string Govfx.ComputedStyle)
    (name value : string) (priority priority' : bool) :
  is_Some (leadingName value) ->
  Govfx.AddMore c name value priority = Ret c' ->
  Govfx.AddMore c' name value priority' = Ret c'.
Proof.
  intros Hv Hret.
  assert (Hshape : exists m',
             c' = <[ name := m' ]> c
             ∧ In value (Govfx.Values m')
             ∧ (forall entry, In entry (Govfx.Values m') ->
                  sameLeadingName value entry = true -> entry = value)
             ∧ Forall (fun entry => is_Some (leadingName entry)) (Govfx.Values m')).
  { destruct (c !! name) as [m|] eqn:Hc.
    - pose proof (AddMore_present _ _ _ _ _ m Hc Hret) as [Hc' Hnamed].
      eexists. split; [exact Hc'|]. cbn.
      pose proof (mergeOrAppend_result (Govfx.Values m) value) as (H1 & H2 & H3).
      split; [exact H1 | split; [exact H2|]]. apply H3; [exact Hv | tauto].
    - rewrite (AddMore_absent _ _ _ _ Hc) in Hret. injection Hret as <-.
      eexists. split; [reflexivity|]. cbn. split; [now left|].
      split; [intros entry [<-|[]] _; reflexivity | now constructor]. }
  destruct Hshape as (m' & -> & Hin & Hsame & Hall).
  rewrite AddMore_outcome. unfold allNamed, mergedMap. rewrite lookup_insert_eq.
  assert (Hnamed : forallb (fun entry => bool_decide (is_Some (leadingName entry)))
                           (Govfx.Values m') = true).
  { apply forallb_forall. intros entry He. apply bool_decide_eq_true.
    rewrite Forall_forall in Hall. apply Hall, list_elem_of_In, He. }
  rewrite Hnamed, (bool_decide_eq_true_2 _ Hv), orb_true_r.
  rewrite (mergeOrAppend_settled _ _ Hv Hin Hsame), insert_insert_eq.
  destruct m'. reflexivity.
Qed.

Lemma AddMore_idempotent_witness :
  let c := Govfx.Add ∅ "transform" "scale(2)" true in
  let c' := mergedMap c "transform" "rotate(3deg)" false in
  is_Some (leadingName "rotate(3deg)")
  ∧ Govfx.AddMore c "transform" "rotate(3deg)" false = Ret c'
  ∧ Govfx.AddMore c' "transform" "rotate(3deg)" true = Ret c'.
Proof.
  cbv zeta. split; [vm_compute; eauto | split; [vm_compute; reflexivity|]].
  apply (AddMore_idempotent (Govfx.Add ∅ "transform" "scale(2)" true) _
           "transform" "rotate(3deg)" false true).
  - vm_compute. eauto.
  - vm_compute. reflexivity.
Defined.

Lemma leadingNames_replace (value : string) (vals : list string) :
  leadingNames (map (fun entry => if sameLeadingName value entry then value else entry) vals)
  = leadingNames vals.
Proof.
  unfold leadingNames. rewrite map_map. apply map_ext. intros entry.
  destruct (sameLeadingName value entry) eqn:E; [|reflexivity].
  apply sameLeadingName_eq in E as [_ E]. congruence.
Qed.

(** [AddMore] keeps the leading names of a value list distinct: if no two
    entries of the list of a property share a leading name before the
    call, none do after it. *)
Theorem AddMore_keeps_names_distinct (c c' : gmap string Govfx.ComputedStyle)
    (name value : string) (priority : bool) (m : Govfx.ComputedStyle) :
  c !! name = Some m ->
  NoDup (leadingNames (Govfx.Values m)) ->
  Govfx.AddMore c name value priority = Ret c' ->
  exists m', c' !! name = Some m' ∧ NoDup (leadingNames (Govfx.Values m')).
Proof.
  intros Hc Hnodup Hret.
  pose proof (AddMore_present _ _ _ _ _ m Hc Hret) as [Hc' Hnamed]. subst c'.
  eexists. rewrite lookup_insert_eq. split; [reflexivity|]. cbn.
  unfold mergeOrAppend. destruct (bool_decide (Govfx.Values m = ["none"])) eqn:Hnone.
  - cbn. apply NoDup_singleton.
  - apply bool_decide_eq_false in Hnone.
    destruct Hnamed as [Hn|[Hv Hall]]; [contradiction|].
    destruct (existsb _ (Govfx.Values m)) eqn:Hfound.
    + now rewrite leadingNames_replace.
    + unfold leadingNames in *. rewrite map_app. cbn.
      apply NoDup_app. split; [exact Hnodup | split; [|apply NoDup_singleton]].
      intros n Hin Hval. apply list_elem_of_singleton in Hval. subst n.
      apply list_elem_of_In, in_map_iff in Hin as (entry & Hname & Hin).
      assert (Ht : existsb (sameLeadingName value) (Govfx.Values m) = true).
      { apply existsb_exists. exists entry. split; [exact Hin|].
        apply sameLeadingName_eq. auto. }
      congruence.
Qed.

Lemma AddMore_keeps_names_distinct_witness :
  let c := Govfx.Add ∅ "transform" "scale(2)" true in
  exists m', mergedMap c "transform" "rotate(3deg)" false !! "transform" = Some m'
             ∧ NoDup (leadingNames (Govfx.Values m')).
Proof.
  cbv zeta.
  apply (AddMore_keeps_names_distinct (Govfx.Add ∅ "transform" "scale(2)" true) _
           "transform" "rotate(3deg)" false
           {| Govfx.Name := "transform"; Govfx.VendorName := "transform";
              Govfx.Value := "scale(2)"; Govfx.Values := ["scale(2)"];
              Govfx.Priority := true |}).
  - vm_compute. reflexivity.
  - cbn. apply NoDup_singleton.
  - vm_compute. reflexivity.
Defined.

(** *** More on [ToRGB] *)

Lemma isAscii_lead (c : ascii) : isAscii c = true -> Go.lead c = None.
Proof.
  unfold isAscii, Go.lead. intros H. apply Nat.ltb_lt in H.
  destruct (Nat.ltb_spec (Go.byte c) 194); [reflexivity | lia].
Qed.

Lemma explode_cons_ascii (c : ascii) (s : string) :
  Go.lead c = None ->
  Go.explode (String c s) = String c EmptyString :: Go.explode s.
Proof.
  intros Hc. unfold Go.explode. cbn [Go.len String.length Go.explodeLoop].
  unfold Go.decodeSize. rewrite Hc. cbn [String.substring Go.drop].
  destruct s; reflexivity.
Qed.

Lemma unhashed_plain (c : ascii) (s : string) :
  c <> "#"%char ->
  unhashed (String c s) = String c s ∧ unhashed ("#" +:+ String c s) = String c s.
Proof.
  intros Hne. change ("#" +:+ String c s) with (String "#" (String c s)).
  unfold unhashed, Go.TrimPrefix. rewrite !HasPrefix_cons.
  rewrite bool_decide_eq_false_2 by congruence.
  rewrite bool_decide_eq_true_2 by reflexivity.
  split; reflexivity.
Qed.

(** The leading '#' is optional for any input, well formed or not: before
    a string that does not itself begin with '#' it changes nothing, for
    [ToRGB] and for [RGBA]. *)
Theorem ToRGB_hash_optional (parse : string -> Z) (h : string) (alpha : Z) :
  Go.HasPrefix h "#" = false ->
  Govfx.ToRGB parse ("#" +:+ h) = Govfx.ToRGB parse h
  ∧ Govfx.RGBA parse ("#" +:+ h) alpha = Govfx.RGBA parse h alpha.
Proof.
  intros Hplain.
  assert (Hu : unhashed ("#" +:+ h) = unhashed h).
  { destruct h as [|c s].
    - reflexivity.
    - rewrite HasPrefix_cons in Hplain. apply bool_decide_eq_false in Hplain.
      destruct (unhashed_plain c s) as [U1 U2]; congruence. }
  assert (Hrgb : Govfx.ToRGB parse ("#" +:+ h) = Govfx.ToRGB parse h).
  { unfold Govfx.ToRGB. fold (unhashed ("#" +:+ h)). fold (unhashed h).
    now rewrite Hu. }
  split; [exact Hrgb|]. unfold Govfx.RGBA. now rewrite Hrgb.
Qed.

Lemma ToRGB_hash_optional_witness :
  Go.HasPrefix "1a2B3c" "#" = false
  ∧ Govfx.ToRGB parseIntBase16 ("#" +:+ "1a2B3c") = Govfx.ToRGB parseIntBase16 "1a2B3c".
Proof.
  split; [reflexivity|].
  apply (ToRGB_hash_optional parseIntBase16 "1a2B3c" 0). reflexivity.
Defined.

(** Three ASCII characters stand for their doubled form: [ToRGB] gives the
    same outcome on "abc" as on "aabbcc", whatever the characters and
    whatever [parseIntBase16] makes of them. *)
Theorem ToRGB_shorthand_doubles (parse : string -> Z) (a b c : ascii) :
  a <> "#"%char ->
  isAscii a = true -> isAscii b = true -> isAscii c = true ->
  Govfx.ToRGB parse (String a (String b (String c EmptyString)))
  = Govfx.ToRGB parse
      (String a (String a (String b (String b (String c (String c EmptyString))))))
  ∧ Govfx.ToRGB parse (String a (String b (String c EmptyString)))
    = Ret (parse (String a (String a EmptyString)),
           parse (String b (String b EmptyString)),
           parse (String c (String c EmptyString))).
Proof.
  intros Hne Ha Hb Hc.
  apply isAscii_lead in Ha, Hb, Hc.
  assert (H3 : Govfx.ToRGB parse (String a (String b (String c EmptyString)))
               = Ret (parse (String a (String a EmptyString)),
                      parse (String b (String b EmptyString)),
                      parse (String c (String c EmptyString)))).
  { unfold Govfx.ToRGB. fold (unhashed (String a (String b (String c EmptyString)))).
    destruct (unhashed_plain a (String b (String c EmptyString)) Hne) as [-> _].
    cbn [Go.len String.length Nat.ltb Nat.leb]. unfold Go.SplitChars.
    rewrite explode_three_ascii by assumption. reflexivity. }
  split; [|exact H3]. rewrite H3.
  unfold Govfx.ToRGB.
  fold (unhashed (String a (String a (String b (String b (String c (String c EmptyString))))))).
  destruct (unhashed_plain a (String a (String b (String b (String c (String c EmptyString)))))
              Hne) as [-> _].
  reflexivity.
Qed.

Lemma ToRGB_shorthand_doubles_witness :
  Govfx.ToRGB parseIntBase16 "f0c" = Govfx.ToRGB parseIntBase16 "ff00cc".
Proof.
  apply (ToRGB_shorthand_doubles parseIntBase16 "f" "0" "c");
    [discriminate | reflexivity | reflexivity | reflexivity].
Defined.

(** Of an input shorter than six bytes only the first three characters
    count: what follows three ASCII characters, up to two more bytes, is
    ignored. *)
Theorem ToRGB_short_ignores_rest (parse : string -> Z) (a b c : ascii) (rest : string) :
  a <> "#"%char ->
  isAscii a = true -> isAscii b = true -> isAscii c = true ->
  (Go.len rest < 3)%nat ->
  Govfx.ToRGB parse (String a (String b (String c rest)))
  = Govfx.ToRGB parse (String a (String b (String c EmptyString))).
Proof.
  intros Hne Ha Hb Hc Hrest.
  apply isAscii_lead in Ha, Hb, Hc.
  unfold Govfx.ToRGB.
  fold (unhashed (String a (String b (String c rest)))).
  fold (unhashed (String a (String b (String c EmptyString)))).
  destruct (unhashed_plain a (String b (String c rest)) Hne) as [-> _].
  destruct (unhashed_plain a (String b (String c EmptyString)) Hne) as [-> _].
  assert (Hlt : (Go.len (String a (String b (String c rest))) <? 6)%nat = true).
  { apply Nat.ltb_lt. unfold Go.len in *. cbn [String.length]. lia. }
  rewrite Hlt. cbn [Go.len String.length Nat.ltb Nat.leb].
  unfold Go.SplitChars. rewrite !explode_cons_ascii by assumption. reflexivity.
Qed.

Lemma ToRGB_short_ignores_rest_witness :
  Govfx.ToRGB parseIntBase16 "f0c9z" = Govfx.ToRGB parseIntBase16 "f0c".
Proof.
  apply (ToRGB_short_ignores_rest parseIntBase16 "f" "0" "c" "9z");
    [discriminate | reflexivity | reflexivity | reflexivity | unfold Go.len; cbn; lia].
Defined.

(** Of an input of six bytes or more only the first six count: whatever
    follows them, an alpha pair for instance, is ignored, and the three
    components are parsed from the three pairs of bytes. *)
Theorem ToRGB_ignores_beyond_six (parse : string -> Z) (h rest : string) :
  Go.len h = 6%nat ->
  Go.HasPrefix h "#" = false ->
  Govfx.ToRGB parse (h +:+ rest) = Govfx.ToRGB parse h
  ∧ Govfx.ToRGB parse h
    = Ret (parse (String.substring 0 2 h), parse (String.substring 2 2 h),
           parse (String.substring 4 2 h)).
Proof.
  intros Hlen Hplain.
  destruct h as [|c0 [|c1 [|c2 [|c3 [|c4 [|c5 [|c6 h]]]]]]]; try discriminate.
  rewrite HasPrefix_cons in Hplain. apply bool_decide_eq_false in Hplain.
  assert (Hne : c0 <> "#"%char) by congruence.
  assert (H6 : Govfx.ToRGB parse
                 (String c0 (String c1 (String c2 (String c3 (String c4 (String c5 EmptyString))))))
               = Ret (parse (String c0 (String c1 EmptyString)),
                      parse (String c2 (String c3 EmptyString)),
                      parse (String c4 (String c5 EmptyString)))).
  { unfold Govfx.ToRGB.
    fold (unhashed (String c0 (String c1 (String c2 (String c3 (String c4 (String c5 EmptyString))))))).
    destruct (unhashed_plain c0 (String c1 (String c2 (String c3 (String c4 (String c5 EmptyString)))))
                Hne) as [-> _].
    reflexivity. }
  split; [|exact H6]. rewrite H6.
  change (String c0 (String c1 (String c2 (String c3 (String c4 (String c5 EmptyString))))) +:+ rest)
    with (String c0 (String c1 (String c2 (String c3 (String c4 (String c5 rest)))))).
  unfold Govfx.ToRGB.
  fold (unhashed (String c0 (String c1 (String c2 (String c3 (String c4 (String c5 rest))))))).
  destruct (unhashed_plain c0 (String c1 (String c2 (String c3 (String c4 (String c5 rest)))))
              Hne) as [-> _].
  cbn [Go.len String.length Nat.ltb Nat.leb].
  rewrite !slice_within by (cbn [Go.len String.length]; lia).
  cbn [bind Nat.sub String.substring]. destruct rest; reflexivity.
Qed.

Lemma ToRGB_ignores_beyond_six_witness :
  Govfx.ToRGB parseIntBase16 ("1a2B3c" +:+ "80") = Govfx.ToRGB parseIntBase16 "1a2B3c".
Proof.
  apply (ToRGB_ignores_beyond_six parseIntBase16 "1a2B3c" "80"); reflexivity.
Defined.

(** For a well-formed colour [ToRGB] returns the three components the
    digits denote, each between 0 and 255. *)
Theorem ToRGB_components_in_range (parse : string -> Z) (digits hex : string)
    (r g b : Z) :
  parsesBase16 parse ->
  colourOf digits = Some (r, g, b) ->
  hex = digits ∨ hex = "#" +:+ digits ->
  Govfx.ToRGB parse hex = Ret (r, g, b)
  ∧ (0 <= r <= 255)%Z ∧ (0 <= g <= 255)%Z ∧ (0 <= b <= 255)%Z.
Proof.
  intros Hparse Hcol Hhex.
  split; [exact (ToRGB_of_colour parse digits hex r g b Hparse Hcol Hhex)|].
  exact (colourOf_range digits r g b Hcol).
Qed.

Lemma ToRGB_components_in_range_witness :
  Govfx.ToRGB parseIntBase16 "#1a2B3c" = Ret (26, 43, 60)%Z
  ∧ (0 <= 26 <= 255)%Z ∧ (0 <= 43 <= 255)%Z ∧ (0 <= 60 <= 255)%Z.
Proof.
  apply (ToRGB_components_in_range parseIntBase16 "1a2B3c" "#1a2B3c" 26 43 60).
  - exact parseIntBase16_parsesBase16.
  - reflexivity.
  - right. reflexivity.
Defined.

(** *** More on vendor names *)

Lemma prefix_cons (a b : ascii) (p s : string) :
  String.prefix (String a p) (String b s)
  = if ascii_dec a b then String.prefix p s else false.
Proof. reflexivity. Qed.

Lemma prefix_drop (p s : string) :
  String.prefix p s = true -> s = p +:+ Go.drop (Go.len p) s.
Proof.
  revert s. induction p as [|a p IH]; intros s Hp; [reflexivity|].
  destruct s as [|b s]; [discriminate|].
  rewrite prefix_cons in Hp. destruct (ascii_dec a b) as [->|]; [|discriminate].
  cbn [Go.len String.length Go.drop]. cbv [String.append]. fold String.append.
  f_equal. apply IH, Hp.
Qed.

Lemma prefix_append (p s : string) : String.prefix p (p +:+ s) = true.
Proof.
  induction p as [|a p IH]; [destruct s; reflexivity|].
  cbv [String.append]. fold String.append. rewrite prefix_cons.
  destruct (ascii_dec a a); [exact IH | congruence].
Qed.

Lemma drop_append (p s : string) : Go.drop (Go.len p) (p +:+ s) = s.
Proof.
  induction p as [|a p IH]; [reflexivity|].
  cbv [String.append]. fold String.append. exact IH.
Qed.

Lemma TrimPrefix_append (p s : string) : Go.TrimPrefix (p +:+ s) p = s.
Proof.
  unfold Go.TrimPrefix, Go.HasPrefix. rewrite prefix_append. apply drop_append.
Qed.

Lemma append_assoc (s1 s2 s3 : string) : (s1 +:+ s2) +:+ s3 = s1 +:+ (s2 +:+ s3).
Proof.
  induction s1 as [|a s1 IH]; [reflexivity|].
  cbv [String.append]. fold String.append. now rewrite IH.
Qed.

Lemma length_append (s1 s2 : string) :
  String.length (s1 +:+ s2) = (String.length s1 + String.length s2)%nat.
Proof.
  induction s1 as [|a s1 IH]; [reflexivity|].
  cbv [String.append]. fold String.append. cbn [String.length]. now rewrite IH.
Qed.

Lemma isTailOf_TrimPrefix (s p : string) : isTailOf (Go.TrimPrefix s p) s.
Proof.
  unfold Go.TrimPrefix, Go.HasPrefix.
  destruct (String.prefix p s) eqn:Hp.
  - exists p. now apply prefix_drop.
  - now exists EmptyString.
Qed.

Lemma isTailOf_trans (s1 s2 s3 : string) :
  isTailOf s1 s2 -> isTailOf s2 s3 -> isTailOf s1 s3.
Proof.
  intros [f1 ->] [f2 ->]. exists (f2 +:+ f1). now rewrite append_assoc.
Qed.

Lemma unvendoredName_stripTag (key : string) :
  Govfx.unvendoredName key
  = stripTag "ms" (stripTag "O" (stripTag "webki" (stripTag "moz" key))).
Proof. reflexivity. Qed.

(** The clean-up only cuts from the front: the cleaned-up name is what is
    left of the key after some front part, so it is no longer than the key
    and the key ends with it. *)
Theorem unvendoredName_is_tail (key : string) :
  isTailOf (Govfx.unvendoredName key) key
  ∧ (Go.len (Govfx.unvendoredName key) <= Go.len key)%nat.
Proof.
  assert (Hstrip : forall vo name, isTailOf (stripTag vo name) name).
  { intros vo name. unfold stripTag.
    eapply isTailOf_trans; apply isTailOf_TrimPrefix. }
  assert (Htail : isTailOf (Govfx.unvendoredName key) key).
  { rewrite unvendoredName_stripTag.
    do 3 (eapply isTailOf_trans; [apply Hstrip|]). apply Hstrip. }
  split; [exact Htail|]. destruct Htail as [front Hfront].
  rewrite Hfront at 2. unfold Go.len. rewrite length_append. lia.
Qed.

Lemma stripTag_unprefixed (vo name : string) :
  Go.HasPrefix name vo = false ->
  Go.HasPrefix name ("-" +:+ vo +:+ "-") = false ->
  stripTag vo name = name.
Proof.
  intros H1 H2. unfold stripTag.
  rewrite (TrimPrefix_without_prefix name vo H1).
  apply TrimPrefix_without_prefix, H2.
Qed.

Lemma stripTag_vendored (vo name : string) :
  Go.HasPrefix ("-" +:+ vo +:+ "-" +:+ name) vo = false ->
  stripTag vo ("-" +:+ vo +:+ "-" +:+ name) = name.
Proof.
  intros H1. unfold stripTag. rewrite (TrimPrefix_without_prefix _ vo H1).
  rewrite <- (TrimPrefix_append ("-" +:+ vo +:+ "-") name) at 2.
  f_equal. now rewrite !append_assoc.
Qed.

Lemma unprefixed_tags (name : string) :
  carriesVendorPrefix name = false ->
  stripTag "moz" name = name ∧ stripTag "webki" name = name
  ∧ stripTag "O" name = name ∧ stripTag "ms" name = name.
Proof.
  unfold carriesVendorPrefix, vendorPrefixes.
  cbn [flat_map Govfx.vendorTags app existsb]. intros H.
  repeat match type of H with
         | (_ || _)%bool = false => apply orb_false_elim in H as [? H]
         end.
  repeat split; apply stripTag_unprefixed; assumption.
Qed.

Lemma carriesVendorPrefix_append (p s : string) :
  In p vendorPrefixes -> carriesVendorPrefix (p +:+ s) = true.
Proof.
  intros Hp. unfold carriesVendorPrefix. apply existsb_exists.
  exists p. split; [exact Hp | apply prefix_append].
Qed.

(** [Vendorize] and the clean-up undo each other: for a name that carries
    no vendor prefix, [Vendorize] gives four names, each of which carries
    one and is cleaned up to the name again. *)
Theorem Vendorize_round_trip (u : string) :
  carriesVendorPrefix u = false ->
  List.length (Govfx.Vendorize u) = 4%nat
  ∧ Forall (fun v => carriesVendorPrefix v = true ∧ Govfx.unvendoredName v = u)
           (Govfx.Vendorize u).
Proof.
  intros Hu. split; [reflexivity|].
  destruct (unprefixed_tags u Hu) as (Hmoz & Hwebki & HO & Hms).
  unfold Govfx.Vendorize. cbn [map Govfx.vendorTags].
  repeat apply List.Forall_cons; try apply List.Forall_nil;
    cbv beta; (split; [| rewrite unvendoredName_stripTag]).
  - apply (carriesVendorPrefix_append "-moz-" u). vm_compute. tauto.
  - rewrite (stripTag_vendored "moz" u eq_refl). now rewrite Hwebki, HO, Hms.
  - apply (carriesVendorPrefix_append "-webki-" u). vm_compute. tauto.
  -
    rewrite (stripTag_unprefixed "moz" ("-" +:+ "webki" +:+ "-" +:+ u) eq_refl eq_refl).
    rewrite (stripTag_vendored "webki" u eq_refl). now rewrite HO, Hms.
  - apply (carriesVendorPrefix_append "-O-" u). vm_compute. tauto.
  -
    rewrite (stripTag_unprefixed "moz" ("-" +:+ "O" +:+ "-" +:+ u) eq_refl eq_refl).
    rewrite (stripTag_unprefixed "webki" ("-" +:+ "O" +:+ "-" +:+ u) eq_refl eq_refl).
    rewrite (stripTag_vendored "O" u eq_refl). exact Hms.
  - apply (carriesVendorPrefix_append "-ms-" u). vm_compute. tauto.
  -
    rewrite (stripTag_unprefixed "moz" ("-" +:+ "ms" +:+ "-" +:+ u) eq_refl eq_refl).
    rewrite (stripTag_unprefixed "webki" ("-" +:+ "ms" +:+ "-" +:+ u) eq_refl eq_refl).
    rewrite (stripTag_unprefixed "O" ("-" +:+ "ms" +:+ "-" +:+ u) eq_refl eq_refl).
    apply (stripTag_vendored "ms" u eq_refl).
Qed.

Lemma Vendorize_round_trip_witness :
  carriesVendorPrefix "transform" = false
  ∧ Forall (fun v => carriesVendorPrefix v = true ∧ Govfx.unvendoredName v = "transform")
           (Govfx.Vendorize "transform").
Proof.
  split; [reflexivity|].
  apply (Vendorize_round_trip "transform"). reflexivity.
Defined.

(** *** Names as keys, and the two revisions of the style map *)

Lemma unvendoredName_unprefixed (name : string) :
  carriesVendorPrefix name = false -> Govfx.unvendoredName name = name.
Proof.
  intros Hname. destruct (unprefixed_tags name Hname) as (Hmoz & Hwebki & HO & Hms).
  rewrite unvendoredName_stripTag. now rewrite Hmoz, Hwebki, HO, Hms.
Qed.

(** The operations on the map keep every record under its own name: if
    each record carries the name it is stored under, so it does after
    [Add] and after an [AddMore] that returns. *)
Theorem namedByKey_kept (c : gmap string Govfx.ComputedStyle)
    (name value : string) (priority : bool) :
  namedByKey c ->
  namedByKey (Govfx.Add c name value priority)
  ∧ forall c', Govfx.AddMore c name value priority = Ret c' -> namedByKey c'.
Proof.
  intros Hkeyed. split.
  - intros key m. unfold Govfx.Add, Govfx.Has.
    destruct (c !! name) as [m0|] eqn:Hc; cbn [negb]; rewrite ?Hc;
      (destruct (decide (name = key)) as [<-|Hne];
       [rewrite lookup_insert_eq; intros [= <-]; cbn; eauto
       | rewrite lookup_insert_ne by exact Hne; apply Hkeyed]).
  - intros c' Hret key m.
    destruct (c !! name) as [m0|] eqn:Hc.
    + pose proof (AddMore_present _ _ _ _ _ m0 Hc Hret) as [Hc' _]. subst c'.
      destruct (decide (name = key)) as [<-|Hne].
      * rewrite lookup_insert_eq. intros [= <-]. cbn. eauto.
      * rewrite lookup_insert_ne by exact Hne. apply Hkeyed.
    + rewrite (AddMore_absent _ _ _ _ Hc) in Hret. injection Hret as <-.
      destruct (decide (name = key)) as [<-|Hne].
      * rewrite lookup_insert_eq. intros [= <-]. reflexivity.
      * rewrite lookup_insert_ne by exact Hne. apply Hkeyed.
Qed.

Lemma namedByKey_kept_witness :
  namedByKey (∅ : gmap string Govfx.ComputedStyle)
  ∧ namedByKey (Govfx.Add ∅ "color" "red" false).
Proof.
  assert (Hempty : namedByKey (∅ : gmap string Govfx.ComputedStyle)).
  { intros key m. rewrite lookup_empty. discriminate. }
  split; [exact Hempty|].
  exact (proj1 (namedByKey_kept ∅ "color" "red" false Hempty)).
Defined.

(** On a map whose records carry their names, [Add] of the later revision
    does what [Add] of [css.go] does, as far as name, value and priority
    go. *)
Theorem Add_revisions_agree (c : gmap string Govfx.ComputedStyle)
    (name value : string) (priority : bool) :
  namedByKey c ->
  plain <$> Govfx.Add c name value priority
  = VfxStyle.Add (plain <$> c) name value priority.
Proof.
  intros Hkeyed. unfold Govfx.Add, Govfx.Has, VfxStyle.Add.
  destruct (c !! name) as [m|] eqn:Hc; cbn [negb]; rewrite ?Hc;
    rewrite fmap_insert; unfold plain at 1; cbn; [|reflexivity].
  now rewrite (Hkeyed name m Hc).
Qed.

Lemma Add_revisions_agree_witness :
  plain <$> Govfx.Add (Govfx.Add ∅ "color" "red" false) "color" "blue" true
  = VfxStyle.Add (plain <$> Govfx.Add ∅ "color" "red" false) "color" "blue" true.
Proof.
  apply (Add_revisions_agree (Govfx.Add ∅ "color" "red" false) "color" "blue" true).
  intros key m. unfold Govfx.Add, Govfx.Has. rewrite lookup_empty. cbn [negb].
  destruct (decide ("color" = key)) as [<-|Hne].
  - rewrite lookup_insert_eq. intros Hm. injection Hm as <-. reflexivity.
  - rewrite lookup_insert_ne by exact Hne. rewrite lookup_empty. discriminate.
Defined.

Section Revisions.
Context {JsObject Element : Type}.
Variable JsString : JsObject -> string.
Variable TrimSpace : string -> string.
Variable Window : Element -> string -> option (Govfx.CSSStyleDeclaration JsObject).

Lemma fold_rangeStep_plain (css : Govfx.CSSStyleDeclaration JsObject)
    (entries : list (string * string)) :
  forall styleMap : gmap string Govfx.ComputedStyle,
    (forall key val, In (key, val) entries -> carriesVendorPrefix key = false) ->
    plain <$> fold_left (Govfx.rangeStep JsObject JsString TrimSpace css) entries styleMap
    = fold_left (VfxStyle.rangeStep JsObject JsString TrimSpace css) entries
                (plain <$> styleMap).
Proof.
  induction entries as [|[key val] entries IH]; intros styleMap Hplain; [reflexivity|].
  cbn [fold_left]. rewrite IH by (intros k v Hin; apply (Hplain k v); now right).
  f_equal. rewrite rangeStep_insert, fmap_insert.
  unfold VfxStyle.rangeStep, plain, styleRecord.
  rewrite !(unvendoredName_unprefixed key) by (apply (Hplain key val); now left).
  destruct (Govfx.GetComputedStylePriority JsObject JsString TrimSpace css key).
  reflexivity.
Qed.

(** On a computed style none of whose keys carries a vendor prefix the two
    revisions of [GetComputedStyleMap] agree: the later one returns the
    map of the earlier, with the vendor name and value list added to each
    record, and the same error. *)
Theorem GetComputedStyleMap_revisions_agree (elem : Element) (ps : string) :
  (forall css key val,
      Window elem ps = Some css -> In (key, val) (Govfx.ToMap JsObject css) ->
      carriesVendorPrefix key = false) ->
  VfxStyle.GetComputedStyleMap JsObject JsString TrimSpace Element Window elem ps
  = match Govfx.GetComputedStyleMap JsObject JsString TrimSpace Element Window elem ps with
    | Ret (styleMap, err) => Ret (option_map (fun m : gmap string Govfx.ComputedStyle => plain <$> m) styleMap, err)
    | Fault f => Fault f
    end.
Proof.
  intros Hplain.
  unfold VfxStyle.GetComputedStyleMap, Govfx.GetComputedStyleMap, Govfx.GetComputedStyle.
  destruct (Window elem ps) as [css|] eqn:Hcss; cbn; [|reflexivity].
  rewrite fold_rangeStep_plain by (intros k v; apply (Hplain css k v eq_refl)).
  now rewrite fmap_empty.
Qed.
End Revisions.

Lemma GetComputedStyleMap_revisions_agree_witness :
  VfxStyle.GetComputedStyleMap string id trimSpaceAscii nat (fun _ _ => Some plainStyle) 0 ""
  = match Govfx.GetComputedStyleMap string id trimSpaceAscii nat
            (fun _ _ => Some plainStyle) 0 "" with
    | Ret (styleMap, err) => Ret (option_map (fun m : gmap string Govfx.ComputedStyle => plain <$> m) styleMap, err)
    | Fault f => Fault f
    end.
Proof.
  apply (GetComputedStyleMap_revisions_agree id trimSpaceAscii (fun _ _ => Some plainStyle) 0 "").
  intros css key val Hcss Hin. injection Hcss as <-.
  destruct Hin as [Hin|[Hin|[]]]; injection Hin as <- _; reflexivity.
Defined.

(** *** The properties of the map at the sample page *)

Lemma sample_cleanNames_distinct : NoDup (cleanNames (Govfx.ToMap string sampleStyle)).
Proof.
  change (cleanNames (Govfx.ToMap string sampleStyle))
    with ["color"; "transform"; "-webkit-transform"].
  apply (bool_decide_unpack _). vm_compute. exact I.
Qed.

Lemma GetComputedStyleMap_last_visited_witness :
  sampleWindow 0 "" = Some sampleStyle
  ∧ exists styleMap,
      Govfx.GetComputedStyleMap string id trimSpaceAscii nat sampleWindow 0 ""
        = Ret (Some styleMap, None)
      ∧ forall name,
          styleMap !! name
          = match lastVisited name (Govfx.ToMap string sampleStyle) with
            | Some (key, val) => Some (styleRecord id trimSpaceAscii sampleStyle key val)
            | None => None
            end.
Proof.
  split; [reflexivity|].
  apply (GetComputedStyleMap_last_visited id trimSpaceAscii sampleWindow sampleStyle 0 "").
  reflexivity.
Defined.

Lemma GetComputedStyleMap_names_witness :
  let styleMap :=
    fold_left (Govfx.rangeStep string id trimSpaceAscii sampleStyle)
              (Govfx.ToMap string sampleStyle) ∅ in
  sampleWindow 0 "" = Some sampleStyle
  ∧ (is_Some (styleMap !! "transform")
     <-> In "transform" (cleanNames (Govfx.ToMap string sampleStyle))).
Proof.
  cbv zeta. split; [reflexivity|].
  apply (GetComputedStyleMap_names id trimSpaceAscii sampleWindow sampleStyle 0 "");
    reflexivity.
Defined.

Lemma GetComputedStyleMap_records_witness :
  let styleMap :=
    fold_left (Govfx.rangeStep string id trimSpaceAscii sampleStyle)
              (Govfx.ToMap string sampleStyle) ∅ in
  let cs := styleRecord id trimSpaceAscii sampleStyle "-moz-transform" "none" in
  styleMap !! "transform" = Some cs
  ∧ Govfx.Name cs = "transform"
  ∧ Govfx.unvendoredName (Govfx.VendorName cs) = "transform"
  ∧ In (Govfx.VendorName cs, Govfx.Value cs) (Govfx.ToMap string sampleStyle)
  ∧ Govfx.Values cs
    = (if String.eqb (trimSpaceAscii (Govfx.Value cs)) "none" then [] else [Govfx.Value cs]).
Proof.
  cbv zeta. split; [vm_compute; reflexivity|].
  apply (GetComputedStyleMap_records id trimSpaceAscii sampleWindow sampleStyle 0 ""
           (fold_left (Govfx.rangeStep string id trimSpaceAscii sampleStyle)
                      (Govfx.ToMap string sampleStyle) ∅)
           "transform").
  - reflexivity.
  - reflexivity.
  - vm_compute. reflexivity.
Defined.

Lemma GetComputedStyleMap_keeps_distinct_names_witness :
  let styleMap :=
    fold_left (Govfx.rangeStep string id trimSpaceAscii sampleStyle)
              (Govfx.ToMap string sampleStyle) ∅ in
  NoDup (cleanNames (Govfx.ToMap string sampleStyle))
  ∧ (forall key val, In (key, val) (Govfx.ToMap string sampleStyle) ->
       styleMap !! Govfx.unvendoredName key
       = Some (styleRecord id trimSpaceAscii sampleStyle key val))
  ∧ size styleMap = List.length (Govfx.ToMap string sampleStyle).
Proof.
  cbv zeta. split; [exact sample_cleanNames_distinct|].
  apply (GetComputedStyleMap_keeps_distinct_names id trimSpaceAscii sampleWindow
           sampleStyle 0 "").
  - reflexivity.
  - reflexivity.
  - exact sample_cleanNames_distinct.
Defined.

Lemma GetComputedStyleMap_order_irrelevant_witness :
  Permutation (Govfx.ToMap string sampleStyle) (Govfx.ToMap string sampleStyleReversed)
  ∧ Govfx.GetComputedStyleMap string id trimSpaceAscii nat
      (fun _ _ => Some sampleStyle) 0 ""
    = Govfx.GetComputedStyleMap string id trimSpaceAscii nat
        (fun _ _ => Some sampleStyleReversed) 0 "".
Proof.
  split; [apply Permutation_rev|].
  apply (GetComputedStyleMap_order_irrelevant id trimSpaceAscii
           (fun _ _ => Some sampleStyle) (fun _ _ => Some sampleStyleReversed)
           sampleStyle sampleStyleReversed 0 "").
  - reflexivity.
  - reflexivity.
  - intros key. reflexivity.
  - apply Permutation_rev.
  - exact sample_cleanNames_distinct.
Defined.
